(** * create_icons.py: the icon generator, embedded and verified

    The script makes the directory [dist/icons], then for each size of
    [16; 48; 128] builds a green square canvas, paints a white triangle on
    it, saves it as [dist/icons/icon{size}.png] and prints a line.

    Integers are [Z] (Python's [//] is floor division, as [Z.div] is), the
    file system is a finite map from paths to nodes, and the script's
    effects (file system, console, uncaught exceptions) live in a small
    state-and-exception monad. *)

From Stdlib Require Import ZArith Lia List Ascii String.
From stdpp Require Import gmap strings list pretty.

Open Scope Z_scope.

(** ** Triangle geometry (lines 13-21 of the script) *)

Definition point : Type := Z * Z.

(** [arrow_size = size // 3] *)
Definition arrow_size (size : Z) : Z := size / 3.

(** [center_x, center_y = size // 2, size // 2] *)
Definition center_x (size : Z) : Z := size / 2.
Definition center_y (size : Z) : Z := size / 2.

(** The list [points] handed to [draw.polygon]. *)
Definition points (size : Z) : list point :=
  [ (center_x size, center_y size - arrow_size size / 2);
    (center_x size - arrow_size size / 2, center_y size + arrow_size size / 2);
    (center_x size + arrow_size size / 2, center_y size + arrow_size size / 2) ].

(** Every coordinate that occurs in a list of points. *)
Definition coordinates (pts : list point) : list Z :=
  flat_map (fun p => [fst p; snd p]) pts.

(** ** Colours (PIL's [ImageColor.getrgb], for the two forms the script uses) *)

Definition rgb : Type := Z * Z * Z.

Definition lower (c : ascii) : ascii :=
  let n := N_of_ascii c in
  if ((65 <=? n) && (n <=? 90))%N then ascii_of_N (n + 32) else c.

Fixpoint lower_string (s : string) : string :=
  match s with
  | EmptyString => EmptyString
  | String c r => String (lower c) (lower_string r)
  end.

(** One character of [[a-f0-9]] as a number. *)
Definition hex_digit (c : ascii) : option Z :=
  let n := Z.of_N (N_of_ascii c) in
  if (48 <=? n) && (n <=? 57) then Some (n - 48)
  else if (97 <=? n) && (n <=? 102) then Some (n - 87)
  else None.

(** [int(s, 16)] for a two-character string. *)
Definition hex_pair (hi lo : ascii) : option Z :=
  match hex_digit hi, hex_digit lo with
  | Some h, Some l => Some (16 * h + l)
  | _, _ => None
  end.

(** The form [#rrggbb]. *)
Definition hex_colour (s : string) : option rgb :=
  match s with
  | String "#" (String r1 (String r0 (String g1 (String g0
      (String b1 (String b0 EmptyString)))))) =>
      match hex_pair r1 r0, hex_pair g1 g0, hex_pair b1 b0 with
      | Some r, Some g, Some b => Some (r, g, b)
      | _, _, _ => None
      end
  | _ => None
  end.

(** The entries of PIL's [colormap] that the script can reach. *)
Definition colormap : list (string * string) :=
  [ ("white", "#ffffff") ]%string.

Definition colormap_get (name : string) : option string :=
  snd <$> find (fun kv => bool_decide (fst kv = name)) colormap.

(** [getrgb]: lower-case the string, try the colour names, then [#rrggbb]. *)
Definition getrgb (color : string) : option rgb :=
  let color := lower_string color in
  match colormap_get color with
  | Some hex => hex_colour hex
  | None => hex_colour color
  end.

(** The colours of the script, as [getrgb] reads them. *)
Definition green : rgb := (76, 175, 80).
Definition white : rgb := (255, 255, 255).

(** ** Images *)

(** An image carries its mode, its size [(width, height)] and its rows of
    pixels, top row first. *)
Record Image : Type := mkImage {
  im_mode : string;
  im_size : Z * Z;
  im_data : list (list rgb)
}.

Definition width (img : Image) : Z := fst (im_size img).
Definition height (img : Image) : Z := snd (im_size img).

(** What the script takes from the imaging library without fixing it: which
    pixels [ImageDraw.polygon] paints for a list of vertices, and the bytes
    the PNG encoder writes for an image.  The two laws are the ones every
    polygon filler obeys on a triangle: lattice points strictly inside are
    painted, and nothing is painted outside the bounding box of the
    vertices. *)

(** Twice the signed area of the triangle [a b p]. *)
Definition edge (a b p : point) : Z :=
  (fst b - fst a) * (snd p - snd a) - (snd b - snd a) * (fst p - fst a).

(** [p] is strictly inside the triangle [a b c] (either orientation). *)
Definition strictly_inside (a b c p : point) : bool :=
  let e1 := edge a b p in
  let e2 := edge b c p in
  let e3 := edge c a p in
  ((0 <? e1) && (0 <? e2) && (0 <? e3)) || ((e1 <? 0) && (e2 <? 0) && (e3 <? 0)).

(** [p] is inside the triangle [a b c] or on its border. *)
Definition inside_or_on (a b c p : point) : bool :=
  let e1 := edge a b p in
  let e2 := edge b c p in
  let e3 := edge c a p in
  ((0 <=? e1) && (0 <=? e2) && (0 <=? e3)) || ((e1 <=? 0) && (e2 <=? 0) && (e3 <=? 0)).

(** [p] is within the bounding box of the vertices. *)
Definition in_bbox (pts : list point) (p : point) : bool :=
  existsb (fun q => fst q <=? fst p) pts && existsb (fun q => fst p <=? fst q) pts &&
  existsb (fun q => snd q <=? snd p) pts && existsb (fun q => snd p <=? snd q) pts.

Class Pillow : Type := {
  covers : list point -> point -> bool;
  png_encode : Image -> list Byte.byte;
  covers_interior : forall a b c p,
    strictly_inside a b c p = true -> covers [a; b; c] p = true;
  covers_bbox : forall pts p,
    covers pts p = true -> in_bbox pts p = true
}.

(** ** The world the script runs in *)

(** A path is its list of components, relative to the working directory:
    ['dist/icons'] is [["dist"; "icons"]] and [[]] is the working directory
    itself. *)
Abbreviation path := (list string).

Inductive node : Type :=
| Dir
| File (content : list Byte.byte).

(** The file system, the paths on which the operating system refuses to
    create or write for lack of permission, and the lines printed so
    far. *)
Record World : Type := mkWorld {
  fs : gmap path node;
  denied : gset path;
  console : list string
}.

(** The exceptions the modelled calls raise.  Other failures of the
    operating system (a full or read-only device, a dangling link) are
    outside the model. *)
Inductive exn : Type :=
| FileExistsError
| FileNotFoundError
| NotADirectoryError
| IsADirectoryError
| PermissionError
| ValueError.

(** [except OSError] catches every exception of the file system. *)
Definition is_OSError (e : exn) : bool :=
  match e with
  | ValueError => false
  | _ => true
  end.

(** A statement either completes or raises; either way it leaves a world
    behind. *)
Inductive result (A : Type) : Type :=
| Ok (a : A) (w : World)
| Raise (e : exn) (w : World).
Arguments Ok {A} a w.
Arguments Raise {A} e w.

Definition M (A : Type) : Type := World -> result A.

Definition ret {A : Type} (a : A) : M A := fun w => Ok a w.

Definition raise {A : Type} (e : exn) : M A := fun w => Raise e w.

Definition bind {A B : Type} (m : M A) (k : A -> M B) : M B :=
  fun w =>
    match m w with
    | Ok a w' => k a w'
    | Raise e w' => Raise e w'
    end.

(** [try: m  except: handler] *)
Definition try_except {A : Type} (m : M A) (handler : exn -> M A) : M A :=
  fun w =>
    match m w with
    | Ok a w' => Ok a w'
    | Raise e w' => handler e w'
    end.

Notation "x <- m ;; k" := (bind m (fun x => k))
  (at level 100, m at next level, right associativity).
Notation "m ;; k" := (bind m (fun _ => k))
  (at level 100, right associativity).

(** [for x in xs: body(x)] *)
Fixpoint for_each {A : Type} (xs : list A) (body : A -> M unit) : M unit :=
  match xs with
  | [] => ret tt
  | x :: rest => body x ;; for_each rest body
  end.

(** ** Paths *)

(** [s.split('/')] *)
Fixpoint split_slash (s : string) : list string :=
  match s with
  | EmptyString => [EmptyString]
  | String c rest =>
      if bool_decide (c = "/"%char) then EmptyString :: split_slash rest
      else match split_slash rest with
           | [] => [String c EmptyString]
           | h :: t => String c h :: t
           end
  end.

(** The components of a relative path; empty components (doubled or
    trailing slashes) do not count. *)
Definition components (s : string) : path :=
  filter (fun c => c <> EmptyString) (split_slash s).

Definition parent (p : path) : path := removelast p.

(** The node at a path; the working directory is always a directory. *)
Definition node_at (m : gmap path node) (p : path) : option node :=
  match p with
  | [] => Some Dir
  | _ => m !! p
  end.

(** [os.path.exists] and [os.path.isdir] *)
Definition path_exists (p : path) : M bool :=
  fun w =>
    match node_at (fs w) p with
    | Some _ => Ok true w
    | None => Ok false w
    end.

Definition isdir (p : path) : M bool :=
  fun w =>
    match node_at (fs w) p with
    | Some Dir => Ok true w
    | _ => Ok false w
    end.

(** ** The operating system calls *)

(** [os.mkdir]: the path must be free and its parent a directory. *)
Definition mkdir (p : path) : M unit :=
  fun w =>
    match p with
    | [] => Raise FileNotFoundError w
    | _ =>
      match fs w !! p with
      | Some _ => Raise FileExistsError w
      | None =>
        match node_at (fs w) (parent p) with
        | None => Raise FileNotFoundError w
        | Some (File _) => Raise NotADirectoryError w
        | Some Dir =>
            if bool_decide (p ∈ denied w) then Raise PermissionError w
            else Ok tt (mkWorld (<[p := Dir]> (fs w)) (denied w) (console w))
        end
      end
    end.

(** The last step of [os.makedirs]: [mkdir], whose [OSError] is raised
    again unless [exist_ok] holds and the path is a directory. *)
Definition mkdir_last (name : path) (exist_ok : bool) : M unit :=
  try_except (mkdir name)
    (fun e =>
       d <- isdir name ;;
       if is_OSError e && (negb exist_ok || negb d) then raise e
       else if is_OSError e then ret tt
       else raise e).

(** [os.makedirs(name, exist_ok)], on the components of [name] in reverse
    (last component first).  As in the library: when the head is not empty
    and does not exist it is made first, and a [FileExistsError] of that
    recursive call is passed over; then comes the last step. *)
Fixpoint makedirs_rev (rname : list string) (exist_ok : bool) : M unit :=
  match rname with
  | [] => mkdir []
  | tail :: rhead =>
      let name := rev (tail :: rhead) in
      let head := rev rhead in
      (there <- path_exists head ;;
       if bool_decide (head <> []) && negb there then
         try_except (makedirs_rev rhead exist_ok)
           (fun e => match e with FileExistsError => ret tt | _ => raise e end)
       else ret tt) ;;
      mkdir_last name exist_ok
  end.

Definition makedirs (name : string) (exist_ok : bool) : M unit :=
  makedirs_rev (rev (components name)) exist_ok.

(** [print]: one more line on the console. *)
Definition print (s : string) : M unit :=
  fun w => Ok tt (mkWorld (fs w) (denied w) (console w ++ [s])).

(** ** The imaging calls and the script *)

(** The pixel at column [x], row [y], when it is on the canvas. *)
Definition pixel_at (img : Image) (xy : point) : option rgb :=
  let '(x, y) := xy in
  if (0 <=? x) && (x <? width img) && (0 <=? y) && (y <? height img) then
    match im_data img !! Z.to_nat y with
    | Some row => row !! Z.to_nat x
    | None => None
    end
  else None.

(** The imaging calls touch neither the file system nor the console: they
    return a value or raise. *)
Inductive outcome (A : Type) : Type :=
| Val (a : A)
| Exc (e : exn).
Arguments Val {A} a.
Arguments Exc {A} e.

Definition lift {A : Type} (o : outcome A) : M A :=
  fun w =>
    match o with
    | Val a => Ok a w
    | Exc e => Raise e w
    end.

(** [Image.new(mode, size, color)]: a canvas of one colour.  Only mode
    ['RGB'] is modelled; a negative size or an unknown colour is a
    [ValueError].  Sizes the library cannot allocate (it raises
    [OverflowError] from [2**31] on) are outside the model. *)
Definition Image_new (mode : string) (size : Z * Z) (color : string) : outcome Image :=
  if bool_decide (mode = "RGB"%string) then
    if (fst size <? 0) || (snd size <? 0) then Exc ValueError
    else
      match getrgb color with
      | Some c =>
          Val (mkImage mode size
                 (replicate (Z.to_nat (snd size)) (replicate (Z.to_nat (fst size)) c)))
      | None => Exc ValueError
      end
  else Exc ValueError.

Section Script.

Context {pil : Pillow}.

(** [draw.polygon(xy, fill)], with [draw = ImageDraw.Draw(img)]: the pixels
    the filler covers take the fill colour, on the image itself. *)
Definition polygon (img : Image) (xy : list point) (fill : string) : outcome Image :=
  match getrgb fill with
  | Some ink =>
      Val (mkImage (im_mode img) (im_size img)
             (imap (fun y row =>
                      imap (fun x px =>
                              if covers xy (Z.of_nat x, Z.of_nat y) then ink else px)
                           row)
                   (im_data img)))
  | None => Exc ValueError
  end.

(** [img.save(fp)]: open [fp] for writing (created when missing, truncated
    when present) and write the PNG encoding.  The name ends in [.png],
    which selects the PNG encoder.  An image without pixels, which the
    encoder refuses after the file is opened, is outside the model. *)
Definition save (img : Image) (fp : string) : M unit :=
  fun w =>
    let p := components fp in
    match node_at (fs w) p with
    | Some Dir => Raise IsADirectoryError w
    | _ =>
      match node_at (fs w) (parent p) with
      | None => Raise FileNotFoundError w
      | Some (File _) => Raise NotADirectoryError w
      | Some Dir =>
          if bool_decide (p ∈ denied w) then Raise PermissionError w
          else Ok tt (mkWorld (<[p := File (png_encode img)]> (fs w))
                        (denied w) (console w))
      end
    end.

(** The image of one size, before it is saved (lines 9-23). *)
Definition draw_icon (size : Z) : outcome Image :=
  match Image_new "RGB" (size, size) "#4CAF50" with
  | Val img => polygon img (points size) "white"
  | Exc e => Exc e
  end.

(** The body of the loop (lines 9-25). *)
Definition body (size : Z) : M unit :=
  img <- lift (draw_icon size) ;;
  save img ("dist/icons/icon" +:+ pretty size +:+ ".png") ;;
  print ("Created icon" +:+ pretty size +:+ ".png").

(** The bytes the script writes for a size. *)
Definition icon_bytes (size : Z) : list Byte.byte :=
  match draw_icon size with
  | Val img => png_encode img
  | Exc _ => []
  end.

(** The whole script. *)
Definition main : M unit :=
  makedirs "dist/icons" true ;;
  for_each [16; 48; 128] body.

End Script.

(** ** Observations on a world *)

Definition sizes : list Z := [16; 48; 128].

Definition dist_dir : path := ["dist"]%string.

Definition icons_dir : path := ["dist"; "icons"]%string.

(** The path of the file written for a size. *)
Definition icon_path (size : Z) : path :=
  components ("dist/icons/icon" +:+ pretty size +:+ ".png").

(** The line printed for a size. *)
Definition created (size : Z) : string :=
  "Created icon" +:+ pretty size +:+ ".png".

(** A directory at [p] unless something is there already. *)
Definition ensure_dir (p : path) (m : gmap path node) : gmap path node :=
  match m !! p with
  | Some _ => m
  | None => <[p := Dir]> m
  end.

(** The file system a run leaves when it completes. *)
Definition after_run {pil : Pillow} (m : gmap path node) : gmap path node :=
  <[icon_path 128 := File (icon_bytes 128)]>
    (<[icon_path 48 := File (icon_bytes 48)]>
       (<[icon_path 16 := File (icon_bytes 16)]>
          (ensure_dir icons_dir (ensure_dir dist_dir m)))).

(** The entries directly inside a directory. *)
Definition listdir (m : gmap path node) (d : path) : gset path :=
  filter (fun p => p <> [] /\ parent p = d) (dom m).

Definition is_digit (c : ascii) : bool :=
  let n := N_of_ascii c in ((48 <=? n) && (n <=? 57))%N.

Fixpoint strip_prefix (pre s : string) : option string :=
  match pre, s with
  | EmptyString, _ => Some s
  | String a pre', String b s' =>
      if bool_decide (a = b) then strip_prefix pre' s' else None
  | String _ _, EmptyString => None
  end.

Fixpoint drop_digits (s : string) : string :=
  match s with
  | String c rest => if is_digit c then drop_digits rest else s
  | EmptyString => EmptyString
  end.

(** A file name of the form [icon{size}.png]: [icon], one or more decimal
    digits, [.png]. *)
Definition matches_pattern (name : string) : bool :=
  match strip_prefix "icon" name with
  | Some rest =>
      negb (bool_decide (drop_digits rest = rest)) &&
      bool_decide (drop_digits rest = ".png"%string)
  | None => false
  end.

Definition is_dir (m : gmap path node) (p : path) : bool :=
  match node_at m p with
  | Some Dir => true
  | _ => false
  end.

(** In a file system every entry sits in a directory. *)
Definition well_formed (m : gmap path node) : Prop :=
  map_Forall (fun p _ => p <> [] /\ is_dir m (parent p) = true) m.

(** The two directories exist or can be made. *)
Definition dirs_ready (w : World) : Prop :=
  match fs w !! dist_dir, fs w !! icons_dir with
  | Some _, Some Dir => True
  | Some Dir, None => icons_dir ∉ denied w
  | None, Some Dir => dist_dir ∉ denied w
  | None, None => (dist_dir ∉ denied w) /\ (icons_dir ∉ denied w)
  | _, _ => False
  end.

(** The worlds in which nothing stands in the way of the script: the two
    directories exist or can be made, no output path is a directory, and
    the operating system refuses none of the output paths. *)
Definition ready (w : World) : Prop :=
  dirs_ready w /\
  forall s, s ∈ sizes ->
    fs w !! icon_path s <> Some Dir /\ (icon_path s ∉ denied w).

Definition is_file (m : gmap path node) (p : path) : bool :=
  match m !! p with
  | Some (File _) => true
  | _ => false
  end.

(** The files of the output directory whose name matches [icon{size}.png]. *)
Definition icon_files (m : gmap path node) : gset path :=
  filter (fun p => is_file m p = true /\ matches_pattern (List.last p EmptyString) = true)
         (listdir m icons_dir).

(** ** Example worlds *)

(** Nothing on disk, nothing refused, nothing printed. *)
Definition empty_world : World := mkWorld ∅ ∅ [].

(** [dist/icons] is there already, as a directory. *)
Definition dirs_world : World :=
  mkWorld (<[icons_dir := Dir]> (<[dist_dir := Dir]> ∅)) ∅ [].

(** [dist/icons] is there already, as a regular file. *)
Definition collision_world : World :=
  mkWorld (<[icons_dir := File []]> (<[dist_dir := Dir]> ∅)) ∅ [].

(** [dist] is there already, as a regular file. *)
Definition dist_file_world : World :=
  mkWorld (<[dist_dir := File []]> ∅) ∅ [].

(** [dist/icons] holds a file [icon32.png] from elsewhere. *)
Definition polluted_world : World :=
  mkWorld (<[["dist"; "icons"; "icon32.png"]%string := File []]>
             (<[icons_dir := Dir]> (<[dist_dir := Dir]> ∅))) ∅ [].

(** [dist/icons/icon48.png] is a directory, so the second image cannot be
    written. *)
Definition blocked_world : World :=
  mkWorld (<[["dist"; "icons"; "icon48.png"]%string := Dir]>
             (<[icons_dir := Dir]> (<[dist_dir := Dir]> ∅))) ∅ [].

(** ** More observations *)

(** The world a statement leaves, whether it completed or raised. *)
Definition world_of {A : Type} (r : result A) : World :=
  match r with
  | Ok _ w => w
  | Raise _ w => w
  end.

(** Every character of a string passes a test. *)
Fixpoint string_forall (f : ascii -> bool) (s : string) : bool :=
  match s with
  | EmptyString => true
  | String c rest => f c && string_forall f rest
  end.

Definition not_slash (c : ascii) : bool := negb (bool_decide (c = "/"%char)).

(** A statement keeps a property of the world: whether it completes or
    raises, the world it leaves has the property when the world it found
    had it. *)
Definition keeps (P : World -> Prop) {A : Type} (m : M A) : Prop :=
  forall w, P w -> P (world_of (m w)).

(** From [m] to [m'] every entry is kept as it was, and nothing is new but
    the directories [dist] and [dist/icons]. *)
Definition only_dirs_added (m m' : gmap path node) : Prop :=
  (forall p n, m !! p = Some n -> m' !! p = Some n) /\
  (forall p, m !! p = None ->
     m' !! p = None \/ m' !! p = Some Dir /\ (p = dist_dir \/ p = icons_dir)).

(** ** A reference imaging library

    It paints the lattice points of the closed triangle and writes the PNG
    signature, the size and the raw pixels.  It shows that the laws of
    [Pillow] can be met and lets the script run on concrete worlds. *)

Definition reference_covers (pts : list point) (p : point) : bool :=
  match pts with
  | [a; b; c] => inside_or_on a b c p && in_bbox pts p
  | _ => false
  end.

Definition byte_of_Z (z : Z) : Byte.byte :=
  match Byte.of_N (Z.to_N (z mod 256)) with
  | Some b => b
  | None => Byte.x00
  end.

(** A number as four bytes, most significant first. *)
Definition be32 (z : Z) : list Byte.byte :=
  [ byte_of_Z (z / 16777216); byte_of_Z (z / 65536); byte_of_Z (z / 256); byte_of_Z z ].

Definition png_signature : list Byte.byte :=
  map byte_of_Z [137; 80; 78; 71; 13; 10; 26; 10].

Definition reference_encode (img : Image) : list Byte.byte :=
  png_signature ++ be32 (width img) ++ be32 (height img) ++
  flat_map (fun row => flat_map (fun '(r, g, b) => [byte_of_Z r; byte_of_Z g; byte_of_Z b]) row)
           (im_data img).

(** ** Geometry lemmas *)

Lemma half_arrow_size (size : Z) : arrow_size size / 2 = size / 6.
Proof.
  unfold arrow_size. rewrite Z.div_div by lia. reflexivity.
Qed.

Lemma half_arrow_zero_iff (size : Z) :
  0 <= size -> (arrow_size size / 2 = 0 <-> size < 6).
Proof.
  intros Hs. rewrite half_arrow_size. split; intros H.
  - apply Z.div_small_iff in H; lia.
  - apply Z.div_small. lia.
Qed.

Lemma points_flat (size : Z) :
  points size =
  [ (size / 2, size / 2 - size / 6);
    (size / 2 - size / 6, size / 2 + size / 6);
    (size / 2 + size / 6, size / 2 + size / 6) ].
Proof.
  unfold points, center_x, center_y. rewrite half_arrow_size. reflexivity.
Qed.

Lemma centre_strictly_inside (size : Z) :
  6 <= size ->
  strictly_inside (size / 2, size / 2 - size / 6)
    (size / 2 - size / 6, size / 2 + size / 6)
    (size / 2 + size / 6, size / 2 + size / 6) (size / 2, size / 2) = true.
Proof.
  intros Hs. assert (Hh : 1 <= size / 6) by (apply Z.div_le_lower_bound; lia).
  generalize dependent (size / 6). generalize (size / 2). intros c h Hh.
  unfold strictly_inside, edge. cbn [fst snd]. apply orb_true_iff. right.
  rewrite !andb_true_iff, !Z.ltb_lt. nia.
Qed.

Lemma outside_square_outside_bbox (size x y : Z) :
  0 <= size ->
  x < size / 2 - size / 6 \/ size / 2 + size / 6 < x \/
  y < size / 2 - size / 6 \/ size / 2 + size / 6 < y ->
  in_bbox (points size) (x, y) = false.
Proof.
  intros Hs Hout. assert (Hh : 0 <= size / 6) by (apply Z.div_pos; lia).
  rewrite points_flat. generalize dependent (size / 6). generalize (size / 2).
  intros c h Hout Hh. apply not_true_is_false. intros Hb.
  unfold in_bbox in Hb. cbn [existsb fst snd] in Hb.
  rewrite !orb_false_r in Hb.
  repeat (apply andb_true_iff in Hb; destruct Hb as [Hb ?]).
  repeat match goal with
         | H : orb _ _ = true |- _ => apply orb_true_iff in H
         end.
  lia.
Qed.

(** ** Colours and images *)

Lemma getrgb_background : getrgb "#4CAF50" = Some green.
Proof. reflexivity. Qed.

Lemma getrgb_fill : getrgb "white" = Some white.
Proof. reflexivity. Qed.

Lemma Image_new_val (size : Z) :
  0 <= size ->
  Image_new "RGB" (size, size) "#4CAF50" =
  Val (mkImage "RGB" (size, size)
         (replicate (Z.to_nat size) (replicate (Z.to_nat size) green))).
Proof.
  intros Hs. unfold Image_new. cbn [fst snd].
  rewrite getrgb_background.
  destruct (size <? 0) eqn:E; [lia|]. reflexivity.
Qed.

Lemma Image_new_negative (size : Z) :
  size < 0 -> Image_new "RGB" (size, size) "#4CAF50" = Exc ValueError.
Proof.
  intros Hs. unfold Image_new. cbn [fst snd].
  destruct (size <? 0) eqn:E; [reflexivity|lia].
Qed.

(** ** The reference imaging library obeys the laws *)

(** The barycentric identity, one coordinate at a time. *)
Lemma edge_barycentric_x (a b c p : point) :
  (edge a b p + edge b c p + edge c a p) * fst p =
  edge b c p * fst a + edge c a p * fst b + edge a b p * fst c.
Proof. unfold edge. ring. Qed.

Lemma edge_barycentric_y (a b c p : point) :
  (edge a b p + edge b c p + edge c a p) * snd p =
  edge b c p * snd a + edge c a p * snd b + edge a b p * snd c.
Proof. unfold edge. ring. Qed.

(** A weighted mean with weights of one strict sign lies between the least
    and the greatest of its three values. *)
Lemma mean_between (e1 e2 e3 x1 x2 x3 x : Z) :
  (0 < e1 /\ 0 < e2 /\ 0 < e3) \/ (e1 < 0 /\ e2 < 0 /\ e3 < 0) ->
  (e1 + e2 + e3) * x = e1 * x1 + e2 * x2 + e3 * x3 ->
  (x1 <= x \/ x2 <= x \/ x3 <= x) /\ (x <= x1 \/ x <= x2 \/ x <= x3).
Proof.
  intros Hsign Heq.
  assert (Hz : e1 * (x1 - x) + e2 * (x2 - x) + e3 * (x3 - x) = 0) by lia.
  split.
  - destruct (Z_le_gt_dec x1 x) as [|H1]; [tauto|].
    destruct (Z_le_gt_dec x2 x) as [|H2]; [tauto|].
    destruct (Z_le_gt_dec x3 x) as [|H3]; [tauto|].
    exfalso. destruct Hsign as [(P1 & P2 & P3)|(P1 & P2 & P3)]; nia.
  - destruct (Z_le_gt_dec x x1) as [|H1]; [tauto|].
    destruct (Z_le_gt_dec x x2) as [|H2]; [tauto|].
    destruct (Z_le_gt_dec x x3) as [|H3]; [tauto|].
    exfalso. destruct Hsign as [(P1 & P2 & P3)|(P1 & P2 & P3)]; nia.
Qed.

Lemma strictly_inside_signs (a b c p : point) :
  strictly_inside a b c p = true ->
  (0 < edge b c p /\ 0 < edge c a p /\ 0 < edge a b p) \/
  (edge b c p < 0 /\ edge c a p < 0 /\ edge a b p < 0).
Proof.
  unfold strictly_inside. cbv zeta. intros H.
  apply orb_true_iff in H. destruct H as [H|H];
    repeat (apply andb_true_iff in H; destruct H as [H ?]); [left|right]; lia.
Qed.

Lemma strictly_inside_closed (a b c p : point) :
  strictly_inside a b c p = true -> inside_or_on a b c p = true.
Proof.
  intros H. apply strictly_inside_signs in H. unfold inside_or_on. cbv zeta.
  apply orb_true_iff.
  destruct H as [(?&?&?)|(?&?&?)]; [left|right];
    repeat (apply andb_true_iff; split); lia.
Qed.

Lemma strictly_inside_bbox (a b c p : point) :
  strictly_inside a b c p = true -> in_bbox [a; b; c] p = true.
Proof.
  intros H. apply strictly_inside_signs in H.
  pose proof (edge_barycentric_x a b c p) as Hx.
  pose proof (edge_barycentric_y a b c p) as Hy.
  destruct (mean_between (edge b c p) (edge c a p) (edge a b p)
              (fst a) (fst b) (fst c) (fst p) H) as [Hx1 Hx2]; [lia|].
  destruct (mean_between (edge b c p) (edge c a p) (edge a b p)
              (snd a) (snd b) (snd c) (snd p) H) as [Hy1 Hy2]; [lia|].
  unfold in_bbox. cbn [existsb].
  repeat (apply andb_true_iff; split); rewrite !orb_false_r, !orb_true_iff; lia.
Qed.

Lemma reference_covers_interior (a b c p : point) :
  strictly_inside a b c p = true -> reference_covers [a; b; c] p = true.
Proof.
  intros H. unfold reference_covers.
  rewrite (strictly_inside_closed _ _ _ _ H), (strictly_inside_bbox _ _ _ _ H).
  reflexivity.
Qed.

Lemma reference_covers_bbox (pts : list point) (p : point) :
  reference_covers pts p = true -> in_bbox pts p = true.
Proof.
  unfold reference_covers.
  destruct pts as [|a [|b [|c [|d pts]]]]; try discriminate.
  intros H. apply andb_true_iff in H. tauto.
Qed.

(** The reference imaging library. *)
Definition reference_pillow : Pillow :=
  {| covers := reference_covers;
     png_encode := reference_encode;
     covers_interior := reference_covers_interior;
     covers_bbox := reference_covers_bbox |}.

(** ** The drawn image *)

Section Drawing.

Context {pil : Pillow}.

Lemma draw_icon_val (size : Z) :
  0 <= size ->
  draw_icon size =
  Val (mkImage "RGB" (size, size)
         (imap (fun y row =>
                  imap (fun x px =>
                          if covers (points size) (Z.of_nat x, Z.of_nat y)
                          then white else px) row)
               (replicate (Z.to_nat size) (replicate (Z.to_nat size) green)))).
Proof.
  intros Hs. unfold draw_icon. rewrite Image_new_val by assumption.
  unfold polygon. rewrite getrgb_fill. reflexivity.
Qed.

Lemma draw_icon_negative (size : Z) :
  size < 0 -> draw_icon size = Exc ValueError.
Proof.
  intros Hs. unfold draw_icon. rewrite Image_new_negative by assumption.
  reflexivity.
Qed.

Lemma draw_icon_size (size : Z) (img : Image) :
  0 <= size -> draw_icon size = Val img ->
  im_mode img = "RGB"%string /\
  width img = size /\ height img = size /\
  Z.of_nat (length (im_data img)) = size /\
  Forall (fun row => Z.of_nat (length row) = size) (im_data img).
Proof.
  intros Hs H. rewrite draw_icon_val in H by assumption.
  injection H as <-. cbn [im_mode im_data width height im_size fst snd].
  repeat split.
  - rewrite length_imap, length_replicate. lia.
  - apply Forall_lookup. intros y row Hy.
    rewrite list_lookup_imap in Hy.
    destruct (replicate (Z.to_nat size) (replicate (Z.to_nat size) green) !! y)
      as [r|] eqn:E; [|discriminate].
    apply lookup_replicate in E. destruct E as [-> _].
    cbn in Hy. injection Hy as <-.
    rewrite length_imap, length_replicate. lia.
Qed.

Lemma draw_icon_pixel (size x y : Z) (img : Image) :
  draw_icon size = Val img ->
  0 <= x < size -> 0 <= y < size ->
  pixel_at img (x, y) =
  Some (if covers (points size) (x, y) then white else green).
Proof.
  intros H Hx Hy. rewrite draw_icon_val in H by lia.
  injection H as <-. unfold pixel_at, width, height.
  cbn [im_data im_size fst snd].
  replace ((0 <=? x) && (x <? size) && (0 <=? y) && (y <? size)) with true
    by (symmetry; repeat (apply andb_true_iff; split); lia).
  rewrite list_lookup_imap.
  rewrite (lookup_replicate_2 _ (replicate (Z.to_nat size) green)) by lia.
  cbn [fmap option_fmap option_map].
  rewrite list_lookup_imap.
  rewrite (lookup_replicate_2 _ green) by lia.
  cbn [fmap option_fmap option_map].
  rewrite !Z2Nat.id by lia. reflexivity.
Qed.

End Drawing.

(** Two concrete paths, or a concrete look-up and a node, differ. *)
Ltac paths_differ :=
  let H := fresh in intros H; vm_compute in H; discriminate H.

(** ** Running the script *)

Section Running.

Context {pil : Pillow}.

Lemma world_eta (w : World) : mkWorld (fs w) (denied w) (console w) = w.
Proof. destruct w; reflexivity. Qed.

(** The last step of [makedirs] with [exist_ok=True], case by case. *)
Lemma mkdir_last_true (p : path) (w : World) :
  p <> [] ->
  mkdir_last p true w =
  match fs w !! p with
  | Some Dir => Ok tt w
  | Some (File _) => Raise FileExistsError w
  | None =>
      match node_at (fs w) (parent p) with
      | None => Raise FileNotFoundError w
      | Some (File _) => Raise NotADirectoryError w
      | Some Dir =>
          if bool_decide (p ∈ denied w) then Raise PermissionError w
          else Ok tt (mkWorld (<[p := Dir]> (fs w)) (denied w) (console w))
      end
  end.
Proof.
  intros Hp. unfold mkdir_last, try_except, mkdir, bind, isdir, raise, ret.
  destruct p as [|c p]; [congruence|]. cbn [node_at].
  generalize (parent (c :: p)). intros q.
  destruct (fs w !! (c :: p)) as [[|content]|] eqn:E;
    cbn [is_OSError andb negb]; rewrite ?E; try reflexivity.
  destruct (node_at (fs w) q) as [[|content]|];
    cbn [is_OSError andb negb]; rewrite ?E; try reflexivity.
  destruct (bool_decide (c :: p ∈ denied w));
    cbn [is_OSError andb negb]; rewrite ?E; reflexivity.
Qed.

(** [makedirs] on the two components of ['dist/icons']. *)
Lemma makedirs_icons_eq (w : World) :
  makedirs "dist/icons" true w =
  match fs w !! dist_dir with
  | Some _ => mkdir_last icons_dir true w
  | None =>
      match mkdir_last dist_dir true w with
      | Ok _ w' => mkdir_last icons_dir true w'
      | Raise FileExistsError w' => mkdir_last icons_dir true w'
      | Raise e w' => Raise e w'
      end
  end.
Proof.
  unfold makedirs.
  change (rev (components "dist/icons")) with ["icons"; "dist"]%string.
  cbn [makedirs_rev rev app].
  unfold bind at 1. unfold bind at 1. unfold path_exists at 1. cbn [node_at].
  unfold dist_dir, icons_dir.
  destruct (fs w !! ["dist"%string]) as [n|] eqn:E.
  - reflexivity.
  - unfold try_except, bind, path_exists, ret, raise. cbn [node_at].
    change (bool_decide (["dist"%string] <> [])) with true.
    change (bool_decide (@nil string <> [])) with false.
    cbn [andb negb]. cbv beta iota.
    destruct (mkdir_last ["dist"%string] true w) as [[] w'|e w'];
      [reflexivity|destruct e; reflexivity].
Qed.

(** What [makedirs('dist/icons', exist_ok=True)] does, case by case. *)
Lemma makedirs_icons_cases (w : World) :
  makedirs "dist/icons" true w =
  match fs w !! dist_dir, fs w !! icons_dir with
  | Some _, Some Dir => Ok tt w
  | Some _, Some (File _) => Raise FileExistsError w
  | Some Dir, None =>
      if bool_decide (icons_dir ∈ denied w) then Raise PermissionError w
      else Ok tt (mkWorld (<[icons_dir := Dir]> (fs w)) (denied w) (console w))
  | Some (File _), None => Raise NotADirectoryError w
  | None, o =>
      if bool_decide (dist_dir ∈ denied w) then Raise PermissionError w
      else
        let w' := mkWorld (<[dist_dir := Dir]> (fs w)) (denied w) (console w) in
        match o with
        | Some Dir => Ok tt w'
        | Some (File _) => Raise FileExistsError w'
        | None =>
            if bool_decide (icons_dir ∈ denied w) then Raise PermissionError w'
            else Ok tt (mkWorld (<[icons_dir := Dir]> (fs w')) (denied w) (console w))
        end
  end.
Proof.
  rewrite makedirs_icons_eq.
  destruct (fs w !! dist_dir) as [n|] eqn:Ed.
  - rewrite mkdir_last_true by discriminate.
    change (node_at (fs w) (parent icons_dir)) with (fs w !! dist_dir). rewrite Ed.
    destruct (fs w !! icons_dir) as [[|c]|]; destruct n; reflexivity.
  - rewrite mkdir_last_true by discriminate. rewrite Ed.
    change (node_at (fs w) (parent dist_dir)) with (Some Dir).
    destruct (bool_decide (dist_dir ∈ denied w)); [reflexivity|].
    rewrite mkdir_last_true by discriminate. cbn [fs denied console].
    change (node_at (<[dist_dir:=Dir]> (fs w)) (parent icons_dir))
      with (<[dist_dir:=Dir]> (fs w) !! dist_dir).
    rewrite lookup_insert_eq.
    rewrite lookup_insert_ne by discriminate.
    destruct (fs w !! icons_dir) as [[|c]|]; reflexivity.
Qed.

Lemma sizes_cases (size : Z) : size ∈ sizes -> size = 16 \/ size = 48 \/ size = 128.
Proof.
  unfold sizes. rewrite !elem_of_cons, elem_of_nil. tauto.
Qed.

Lemma icon_path_parent (size : Z) :
  size ∈ sizes -> icon_path size <> [] /\ parent (icon_path size) = icons_dir.
Proof.
  intros H. apply sizes_cases in H. destruct H as [-> | [-> | ->]]; split; (discriminate || reflexivity).
Qed.

Lemma draw_icon_sizes (size : Z) :
  size ∈ sizes -> exists img, draw_icon size = Val img.
Proof.
  intros H. eexists. apply draw_icon_val.
  apply sizes_cases in H. lia.
Qed.

(** The loop body, case by case. *)
Lemma body_cases (size : Z) (w : World) :
  size ∈ sizes ->
  body size w =
  match fs w !! icon_path size with
  | Some Dir => Raise IsADirectoryError w
  | _ =>
      match fs w !! icons_dir with
      | None => Raise FileNotFoundError w
      | Some (File _) => Raise NotADirectoryError w
      | Some Dir =>
          if bool_decide (icon_path size ∈ denied w) then Raise PermissionError w
          else Ok tt (mkWorld (<[icon_path size := File (icon_bytes size)]> (fs w))
                        (denied w) (console w ++ [created size]))
      end
  end.
Proof.
  intros Hs. destruct (icon_path_parent size Hs) as [Hne Hpar].
  destruct (draw_icon_sizes size Hs) as [img Hd].
  unfold body, bind, lift, icon_bytes. rewrite Hd. unfold save, print.
  fold (icon_path size). rewrite Hpar.
  change (node_at (fs w) icons_dir) with (fs w !! icons_dir).
  replace (node_at (fs w) (icon_path size)) with (fs w !! icon_path size)
    by (destruct (icon_path size); [congruence|reflexivity]).
  destruct (fs w !! icon_path size) as [[|c]|];
    destruct (fs w !! icons_dir) as [[|c']|]; try reflexivity;
    destruct (bool_decide (icon_path size ∈ denied w)); reflexivity.
Qed.

(** A failing body leaves the world as it found it. *)
Lemma body_raise_world (size : Z) (w w' : World) (e : exn) :
  body size w = Raise e w' -> w' = w.
Proof.
  unfold body, bind, lift, save, print.
  destruct (draw_icon size) as [img|e0]; [|congruence].
  repeat case_match; congruence.
Qed.

Lemma body_ok_inv (size : Z) (w w' : World) :
  size ∈ sizes ->
  body size w = Ok tt w' ->
  w' = mkWorld (<[icon_path size := File (icon_bytes size)]> (fs w))
         (denied w) (console w ++ [created size]) /\
  fs w !! icons_dir = Some Dir /\
  fs w !! icon_path size <> Some Dir /\
  (icon_path size ∉ denied w).
Proof.
  intros Hs. rewrite (body_cases size w Hs).
  destruct (fs w !! icon_path size) as [[|c]|];
    destruct (fs w !! icons_dir) as [[|c']|]; try discriminate;
    case_bool_decide; try discriminate;
    intros [= <-]; repeat split; congruence.
Qed.

Lemma body_ok (size : Z) (w : World) :
  size ∈ sizes ->
  fs w !! icons_dir = Some Dir ->
  fs w !! icon_path size <> Some Dir ->
  icon_path size ∉ denied w ->
  body size w =
  Ok tt (mkWorld (<[icon_path size := File (icon_bytes size)]> (fs w))
           (denied w) (console w ++ [created size])).
Proof.
  intros Hs Hdir Hnd Hden. rewrite (body_cases size w Hs), Hdir.
  rewrite bool_decide_eq_false_2 by assumption.
  destruct (fs w !! icon_path size) as [[|c]|]; congruence.
Qed.

Lemma makedirs_ok_inv (w wd : World) :
  makedirs "dist/icons" true w = Ok tt wd ->
  wd = mkWorld (ensure_dir icons_dir (ensure_dir dist_dir (fs w)))
         (denied w) (console w) /\
  fs wd !! icons_dir = Some Dir /\
  is_Some (fs wd !! dist_dir).
Proof.
  rewrite makedirs_icons_cases. unfold ensure_dir.
  destruct (fs w !! dist_dir) as [n|] eqn:Ed.
  - destruct (fs w !! icons_dir) as [[|c]|] eqn:Ei.
    + intros Hw. assert (wd = w) as -> by (destruct n; congruence).
      rewrite world_eta, Ei. eauto.
    + destruct n; discriminate.
    + destruct n; [|discriminate]. case_bool_decide; [discriminate|].
      intros [= <-]. cbn [fs]. rewrite lookup_insert_eq, lookup_insert_ne, Ed by discriminate.
      eauto.
  - case_bool_decide; [discriminate|]. cbv zeta. cbn [fs].
    rewrite (lookup_insert_ne (fs w) dist_dir icons_dir) by discriminate.
    destruct (fs w !! icons_dir) as [[|c]|] eqn:Ei.
    + intros [= <-]. cbn [fs]. rewrite lookup_insert_eq, lookup_insert_ne, Ei by discriminate.
      eauto.
    + discriminate.
    + case_bool_decide; [discriminate|].
      intros [= <-]. cbn [fs].
      rewrite lookup_insert_eq, lookup_insert_ne, lookup_insert_eq by discriminate.
      eauto.
Qed.

Lemma in_sizes_16 : 16 ∈ sizes.
Proof. unfold sizes. set_solver. Qed.
Lemma in_sizes_48 : 48 ∈ sizes.
Proof. unfold sizes. set_solver. Qed.
Lemma in_sizes_128 : 128 ∈ sizes.
Proof. unfold sizes. set_solver. Qed.

Lemma ensure_dir_lookup_ne (q p : path) (m : gmap path node) :
  p <> q -> ensure_dir q m !! p = m !! p.
Proof.
  intros H. unfold ensure_dir. destruct (m !! q); [reflexivity|].
  apply lookup_insert_ne. congruence.
Qed.

Lemma ensure_dir_lookup_eq (q : path) (m : gmap path node) :
  ensure_dir q m !! q = Some (default Dir (m !! q)).
Proof.
  unfold ensure_dir. destruct (m !! q) eqn:E; [assumption|].
  apply lookup_insert_eq.
Qed.

(** When [makedirs] completes, the directories were there or could be made. *)
Lemma makedirs_ok_dirs (w wd : World) :
  makedirs "dist/icons" true w = Ok tt wd ->
  dirs_ready w.
Proof.
  rewrite makedirs_icons_cases. unfold dirs_ready.
  destruct (fs w !! dist_dir) as [[|c]|]; destruct (fs w !! icons_dir) as [[|c']|];
    cbv zeta; repeat case_bool_decide; try discriminate; intros _; tauto.
Qed.

Lemma makedirs_ok (w : World) :
  dirs_ready w ->
  makedirs "dist/icons" true w =
  Ok tt (mkWorld (ensure_dir icons_dir (ensure_dir dist_dir (fs w)))
           (denied w) (console w)).
Proof.
  intros H.
  destruct (makedirs "dist/icons" true w) as [[] wd|e wd] eqn:E.
  - apply makedirs_ok_inv in E. destruct E as [-> _]. reflexivity.
  - exfalso. rewrite makedirs_icons_cases in E. unfold dirs_ready in H.
    destruct (fs w !! dist_dir) as [[|c]|]; destruct (fs w !! icons_dir) as [[|c']|];
      cbv zeta in E; repeat case_bool_decide; try discriminate; tauto.
Qed.

(** A run that completes leaves exactly this world, and began ready. *)
Lemma main_ok_inv (w w' : World) :
  main w = Ok tt w' ->
  w' = mkWorld (after_run (fs w)) (denied w) (console w ++ map created sizes) /\
  ready w.
Proof.
  unfold main, bind.
  destruct (makedirs "dist/icons" true w) as [[] wd|e wd] eqn:Em; [|discriminate].
  pose proof (makedirs_ok_dirs _ _ Em) as Hdirs.
  apply makedirs_ok_inv in Em. destruct Em as (-> & Hi & Hd).
  cbn [for_each]. unfold bind.
  destruct (body 16 _) as [[] w1|] eqn:E1; [|discriminate].
  apply (body_ok_inv 16 _ _ in_sizes_16) in E1. destruct E1 as (-> & _ & Hn1 & Hd1).
  destruct (body 48 _) as [[] w2|] eqn:E2; [|discriminate].
  apply (body_ok_inv 48 _ _ in_sizes_48) in E2. destruct E2 as (-> & _ & Hn2 & Hd2).
  destruct (body 128 _) as [[] w3|] eqn:E3; [|discriminate].
  apply (body_ok_inv 128 _ _ in_sizes_128) in E3. destruct E3 as (-> & _ & Hn3 & Hd3).
  intros [= <-]. cbn [fs denied console] in *.
  split.
  - unfold after_run. rewrite <- !app_assoc. reflexivity.
  - split; [exact Hdirs|].
    rewrite !lookup_insert_ne in Hn3 by paths_differ.
    rewrite !lookup_insert_ne in Hn2 by paths_differ.
    rewrite !ensure_dir_lookup_ne in Hn1, Hn2, Hn3 by paths_differ.
    intros s Hs. apply sizes_cases in Hs. destruct Hs as [-> | [-> | ->]]; tauto.
Qed.

Lemma ensure_dirs_icons (w : World) :
  dirs_ready w ->
  ensure_dir icons_dir (ensure_dir dist_dir (fs w)) !! icons_dir = Some Dir.
Proof.
  intros H. pose proof (makedirs_ok w H) as E.
  apply makedirs_ok_inv in E. tauto.
Qed.

(** In a ready world the run completes. *)
Lemma main_ok (w : World) :
  ready w ->
  main w = Ok tt (mkWorld (after_run (fs w)) (denied w) (console w ++ map created sizes)).
Proof.
  intros [Hdirs Houts].
  destruct (Houts 16 in_sizes_16) as [Hn1 Hd1].
  destruct (Houts 48 in_sizes_48) as [Hn2 Hd2].
  destruct (Houts 128 in_sizes_128) as [Hn3 Hd3].
  pose proof (ensure_dirs_icons w Hdirs) as Hi.
  unfold main, bind. rewrite (makedirs_ok w Hdirs).
  cbn [for_each]. unfold bind.
  rewrite (body_ok 16 _ in_sizes_16); cbn [fs denied console];
    rewrite ?lookup_insert_ne, ?ensure_dir_lookup_ne by paths_differ;
    try assumption.
  rewrite (body_ok 48 _ in_sizes_48); cbn [fs denied console];
    rewrite ?lookup_insert_ne, ?ensure_dir_lookup_ne by paths_differ;
    try assumption.
  rewrite (body_ok 128 _ in_sizes_128); cbn [fs denied console];
    rewrite ?lookup_insert_ne, ?ensure_dir_lookup_ne by paths_differ;
    try assumption.
  unfold ret, after_run. rewrite <- !app_assoc. reflexivity.
Qed.

(** ** The world a run leaves *)

Lemma icon_path_inj (s s' : Z) :
  s ∈ sizes -> s' ∈ sizes -> icon_path s = icon_path s' -> s = s'.
Proof.
  intros Hs Hs'. apply sizes_cases in Hs, Hs'.
  destruct Hs as [-> | [-> | ->]]; destruct Hs' as [-> | [-> | ->]];
    intros H; (reflexivity || (vm_compute in H; discriminate H)).
Qed.

Lemma icon_path_not_dir (s : Z) :
  s ∈ sizes -> icon_path s <> dist_dir /\ icon_path s <> icons_dir.
Proof.
  intros Hs. apply sizes_cases in Hs.
  destruct Hs as [-> | [-> | ->]]; split; paths_differ.
Qed.

Lemma after_run_icon (s : Z) (m : gmap path node) :
  s ∈ sizes -> after_run m !! icon_path s = Some (File (icon_bytes s)).
Proof.
  intros Hs. apply sizes_cases in Hs. unfold after_run.
  destruct Hs as [-> | [-> | ->]];
    rewrite ?lookup_insert_eq, ?lookup_insert_ne by paths_differ;
    rewrite ?lookup_insert_eq, ?lookup_insert_ne by paths_differ;
    rewrite ?lookup_insert_eq; reflexivity.
Qed.

Lemma after_run_other (p : path) (m : gmap path node) :
  (forall s, s ∈ sizes -> p <> icon_path s) ->
  after_run m !! p = ensure_dir icons_dir (ensure_dir dist_dir m) !! p.
Proof.
  intros H. unfold after_run.
  rewrite !lookup_insert_ne; [reflexivity| | |]; apply not_eq_sym, H;
    [apply in_sizes_16|apply in_sizes_48|apply in_sizes_128].
Qed.

Lemma after_run_unchanged (p : path) (m : gmap path node) :
  p <> dist_dir -> p <> icons_dir ->
  (forall s, s ∈ sizes -> p <> icon_path s) ->
  after_run m !! p = m !! p.
Proof.
  intros Hd Hi H. rewrite (after_run_other p m H).
  rewrite !ensure_dir_lookup_ne by assumption. reflexivity.
Qed.

Lemma after_run_icons_dir (w : World) :
  dirs_ready w -> after_run (fs w) !! icons_dir = Some Dir.
Proof.
  intros H. rewrite after_run_other.
  - apply ensure_dirs_icons, H.
  - intros s Hs. apply not_eq_sym, icon_path_not_dir, Hs.
Qed.

Lemma after_run_dist_dir (m : gmap path node) :
  after_run m !! dist_dir = Some (default Dir (m !! dist_dir)).
Proof.
  rewrite after_run_other.
  - rewrite ensure_dir_lookup_ne by paths_differ. apply ensure_dir_lookup_eq.
  - intros s Hs. apply not_eq_sym, icon_path_not_dir, Hs.
Qed.

(** ** The claims about a run *)

(** C2: the script completes exactly in the ready worlds, and a run that
    completes has printed exactly the three lines [Created icon16.png],
    [Created icon48.png], [Created icon128.png], in that order, and has
    written [dist/icons/icon16.png], [dist/icons/icon48.png] and
    [dist/icons/icon128.png]; apart from the two directories it may have
    made, every other path is as it was. *)
Theorem C2_files_and_lines (w : World) :
  ((exists w', main w = Ok tt w') <-> ready w) /\
  forall w', main w = Ok tt w' ->
    console w' =
      console w ++ [ "Created icon16.png"; "Created icon48.png"; "Created icon128.png" ]%string /\
    map (fun size => "dist/icons/icon" +:+ pretty size +:+ ".png") [16; 48; 128] =
      [ "dist/icons/icon16.png"; "dist/icons/icon48.png"; "dist/icons/icon128.png" ]%string /\
    fs w' !! ["dist"; "icons"; "icon16.png"]%string = Some (File (icon_bytes 16)) /\
    fs w' !! ["dist"; "icons"; "icon48.png"]%string = Some (File (icon_bytes 48)) /\
    fs w' !! ["dist"; "icons"; "icon128.png"]%string = Some (File (icon_bytes 128)) /\
    fs w' !! ["dist"; "icons"]%string = Some Dir /\
    forall p,
      p ∉ [ ["dist"]; ["dist"; "icons"]; ["dist"; "icons"; "icon16.png"];
            ["dist"; "icons"; "icon48.png"]; ["dist"; "icons"; "icon128.png"] ]%string ->
      fs w' !! p = fs w !! p.
Proof.
  split.
  { split.
    - intros [w' H]. apply main_ok_inv in H. tauto.
    - intros H. eexists. apply main_ok, H. }
  intros w' H. apply main_ok_inv in H. destruct H as [-> [Hdirs Houts]].
  cbn [fs console]. split; [reflexivity|]. split; [reflexivity|].
  split; [apply (after_run_icon 16), in_sizes_16|].
  split; [apply (after_run_icon 48), in_sizes_48|].
  split; [apply (after_run_icon 128), in_sizes_128|].
  split; [apply after_run_icons_dir, Hdirs|].
  intros p Hp. rewrite !not_elem_of_cons in Hp.
  destruct Hp as (Hd & Hi & H16 & H48 & H128 & _).
  apply after_run_unchanged; try assumption.
  intros s Hs. apply sizes_cases in Hs. destruct Hs as [-> | [-> | ->]]; assumption.
Qed.

(** ** The claims about the triangle *)

(** C1: the three vertices the script computes are
    [(size//2, size//2 - size//6)], [(size//2 - size//6, size//2 + size//6)]
    and [(size//2 + size//6, size//2 + size//6)], because the nested
    [(size // 3) // 2] is [size // 6].  This holds for every integer, so in
    particular for every positive size. *)
Theorem C1_triangle_vertices (size : Z) :
  points size =
  [ (size / 2, size / 2 - size / 6);
    (size / 2 - size / 6, size / 2 + size / 6);
    (size / 2 + size / 6, size / 2 + size / 6) ] /\
  arrow_size size / 2 = size / 6 /\
  (size / 3) / 2 = size / 6.
Proof.
  split; [apply points_flat|]. split; apply half_arrow_size.
Qed.

(** C9: for every positive size each coordinate of each vertex lies between
    [0] and [size - 1], so the polygon filler paints no pixel off the
    canvas. *)
Theorem C9_vertices_on_canvas (size : Z) :
  0 < size ->
  Forall (fun c => 0 <= c <= size - 1) (coordinates (points size)) /\
  forall p, covers (points size) p = true ->
    0 <= fst p <= size - 1 /\ 0 <= snd p <= size - 1.
Proof.
  intros Hs. split.
  - rewrite points_flat. cbn [coordinates flat_map fst snd app].
    repeat apply List.Forall_cons; try apply List.Forall_nil.
    all: Z.to_euclidean_division_equations; lia.
  - intros [x y] Hc. apply covers_bbox in Hc. rewrite points_flat in Hc.
    unfold in_bbox in Hc. cbn [existsb fst snd] in Hc.
    rewrite !orb_false_r in Hc.
    repeat (apply andb_true_iff in Hc; destruct Hc as [Hc ?]).
    repeat match goal with
           | H : orb _ _ = true |- _ => apply orb_true_iff in H
           end.
    cbn [fst snd]. Z.to_euclidean_division_equations. lia.
Qed.

(** C10: for a positive size below 6 the half-arrow offset is [0], the three
    vertices are the one point [(size//2, size//2)] and the polygon filler
    can paint no other pixel; from 6 on the offset is positive and the
    three vertices are distinct. *)
Theorem C10_small_sizes_degenerate (size : Z) :
  0 < size ->
  (size < 6 ->
     arrow_size size / 2 = 0 /\
     points size = [ (size / 2, size / 2); (size / 2, size / 2); (size / 2, size / 2) ] /\
     forall p, covers (points size) p = true -> p = (size / 2, size / 2)) /\
  (6 <= size -> 0 < arrow_size size / 2 /\ NoDup (points size)).
Proof.
  intros Hs. split.
  - intros Hlt.
    assert (H0 : size / 6 = 0).
    { rewrite <- half_arrow_size. apply half_arrow_zero_iff; lia. }
    assert (Hp : points size =
                 [ (size / 2, size / 2); (size / 2, size / 2); (size / 2, size / 2) ]).
    { rewrite points_flat, H0, Z.sub_0_r, Z.add_0_r. reflexivity. }
    split; [rewrite half_arrow_size; exact H0|]. split; [exact Hp|].
    intros [x y] Hc. apply covers_bbox in Hc. rewrite Hp in Hc.
    unfold in_bbox in Hc. cbn [existsb fst snd] in Hc.
    rewrite !orb_false_r, !orb_diag in Hc.
    repeat (apply andb_true_iff in Hc; destruct Hc as [Hc ?]).
    f_equal; lia.
  - intros Hge. rewrite half_arrow_size.
    assert (H1 : 1 <= size / 6) by (apply Z.div_le_lower_bound; lia).
    split; [lia|]. rewrite points_flat.
    repeat constructor; rewrite ?elem_of_cons, ?elem_of_nil;
      intros H; repeat (destruct H as [H|H]); try inversion H; lia.
Qed.

(** ** The claims about the image *)

Lemma icon_bytes_val (size : Z) (img : Image) :
  draw_icon size = Val img -> icon_bytes size = png_encode img.
Proof. intros H. unfold icon_bytes. rewrite H. reflexivity. Qed.

(** A pixel the filler covers is white. *)
Lemma pixel_inside (size x y : Z) (img : Image) (a b c : point) :
  draw_icon size = Val img -> points size = [a; b; c] ->
  0 <= x < size -> 0 <= y < size ->
  strictly_inside a b c (x, y) = true ->
  pixel_at img (x, y) = Some white.
Proof.
  intros Hd Hp Hx Hy Hin.
  rewrite (draw_icon_pixel size x y img Hd Hx Hy), Hp.
  rewrite (covers_interior _ _ _ _ Hin). reflexivity.
Qed.

(** A pixel outside the bounding box of the vertices keeps the background. *)
Lemma pixel_outside (size x y : Z) (img : Image) :
  draw_icon size = Val img ->
  0 <= x < size -> 0 <= y < size ->
  in_bbox (points size) (x, y) = false ->
  pixel_at img (x, y) = Some green.
Proof.
  intros Hd Hx Hy Hout.
  rewrite (draw_icon_pixel size x y img Hd Hx Hy).
  destruct (covers (points size) (x, y)) eqn:E; [|reflexivity].
  apply covers_bbox in E. congruence.
Qed.

(** C4: in each of the three images the pixel [(size//2, size//2)] is
    white, because that point lies strictly inside the triangle of the
    computed vertices. *)
Theorem C4_centre_is_white (size : Z) :
  size ∈ sizes ->
  exists img a b c,
    draw_icon size = Val img /\ icon_bytes size = png_encode img /\
    points size = [a; b; c] /\
    strictly_inside a b c (size / 2, size / 2) = true /\
    pixel_at img (size / 2, size / 2) = Some white /\
    getrgb "white" = Some (255, 255, 255).
Proof.
  intros Hs. destruct (draw_icon_sizes size Hs) as [img Hd].
  assert (Hgeo : exists a b c, points size = [a; b; c] /\
                   strictly_inside a b c (size / 2, size / 2) = true).
  { apply sizes_cases in Hs. destruct Hs as [-> | [-> | ->]].
    - exists (8, 6), (6, 10), (10, 10). split; reflexivity.
    - exists (24, 16), (16, 32), (32, 32). split; reflexivity.
    - exists (64, 43), (43, 85), (85, 85). split; reflexivity. }
  assert (Hc : 0 <= size / 2 < size).
  { apply sizes_cases in Hs. Z.to_euclidean_division_equations. lia. }
  destruct Hgeo as (a & b & c & Hp & Hin).
  exists img, a, b, c. repeat split; try assumption.
  - apply icon_bytes_val, Hd.
  - apply (pixel_inside size _ _ img a b c Hd Hp Hc Hc Hin).
Qed.

(** The four corners of a canvas. *)
Lemma corners_outside (size : Z) :
  size ∈ sizes ->
  Forall (fun corner =>
            0 <= fst corner < size /\ 0 <= snd corner < size /\
            in_bbox (points size) corner = false /\
            exists a b c, points size = [a; b; c] /\ inside_or_on a b c corner = false)
         [ (0, 0); (size - 1, 0); (0, size - 1); (size - 1, size - 1) ].
Proof.
  intros Hs. apply sizes_cases in Hs. destruct Hs as [-> | [-> | ->]];
    repeat apply List.Forall_cons; try apply List.Forall_nil;
    (split; [cbn; lia|]); (split; [cbn; lia|]); (split; [reflexivity|]);
    eexists _, _, _; split; reflexivity.
Qed.

(** C5: in each of the three images the four corner pixels have the
    background colour [#4CAF50]: no corner lies inside or on the triangle
    (nor even inside the bounding box of its vertices). *)
Theorem C5_corners_are_background (size : Z) :
  size ∈ sizes ->
  exists img,
    draw_icon size = Val img /\ icon_bytes size = png_encode img /\
    getrgb "#4CAF50" = Some (76, 175, 80) /\
    Forall (fun corner =>
              pixel_at img corner = Some (76, 175, 80) /\
              exists a b c, points size = [a; b; c] /\ inside_or_on a b c corner = false)
           [ (0, 0); (size - 1, 0); (0, size - 1); (size - 1, size - 1) ].
Proof.
  intros Hs. destruct (draw_icon_sizes size Hs) as [img Hd].
  exists img. split; [exact Hd|]. split; [apply icon_bytes_val, Hd|].
  split; [reflexivity|].
  eapply List.Forall_impl; [|apply (corners_outside size Hs)].
  intros [x y] (Hx & Hy & Hout & Hgeo). split; [|exact Hgeo].
  apply (pixel_outside size x y img Hd Hx Hy Hout).
Qed.

(** ** Failures *)

Lemma for_each_app {A : Type} (pre rest : list A) (f : A -> M unit) (w : World) :
  for_each (pre ++ rest) f w =
  match for_each pre f w with
  | Ok _ w1 => for_each rest f w1
  | Raise e w1 => Raise e w1
  end.
Proof.
  revert w. induction pre as [|x pre IH]; intros w; [reflexivity|].
  cbn [for_each app]. unfold bind.
  destruct (f x w) as [[] w'|e w']; [apply IH|reflexivity].
Qed.

Lemma sizes_nodup : NoDup sizes.
Proof.
  unfold sizes. repeat constructor; rewrite ?elem_of_cons, ?elem_of_nil; lia.
Qed.

(** What the loop has done once it got through a list of sizes. *)
Lemma for_each_body_inv (pre : list Z) (wd w1 : World) :
  (forall s, s ∈ pre -> s ∈ sizes) ->
  for_each pre body wd = Ok tt w1 ->
  denied w1 = denied wd /\
  console w1 = console wd ++ map created pre /\
  (forall s, s ∈ pre -> fs w1 !! icon_path s = Some (File (icon_bytes s))) /\
  (forall p, (forall s, s ∈ pre -> p <> icon_path s) -> fs w1 !! p = fs wd !! p).
Proof.
  revert wd. induction pre as [|s rest IH]; intros wd Hin H.
  - cbn in H. injection H as <-. rewrite app_nil_r.
    repeat split; try reflexivity. intros s Hs. inversion Hs.
  - cbn [for_each] in H. unfold bind in H.
    destruct (body s wd) as [[] w'|e w'] eqn:Eb; [|discriminate].
    assert (Hs : s ∈ sizes) by (apply Hin; left).
    apply (body_ok_inv s wd w' Hs) in Eb. destruct Eb as (-> & _ & _ & _).
    apply IH in H; [|intros s0 H0; apply Hin; right; exact H0].
    cbn [fs denied console] in H. destruct H as (Hden & Hcon & Hfiles & Hother).
    split; [exact Hden|]. split; [rewrite Hcon, <- app_assoc; reflexivity|]. split.
    + intros s0 Hs0. destruct (decide (s0 ∈ rest)) as [Hr|Hr]; [apply Hfiles, Hr|].
      apply elem_of_cons in Hs0. destruct Hs0 as [->|Hs0]; [|contradiction].
      rewrite Hother, lookup_insert_eq; [reflexivity|].
      intros s1 Hs1 Heq. apply Hr.
      rewrite (icon_path_inj s s1 Hs (Hin s1 ltac:(right; exact Hs1)) Heq). exact Hs1.
    + intros p Hp. rewrite Hother by (intros s0 H0; apply Hp; right; exact H0).
      apply lookup_insert_ne, not_eq_sym, Hp. left.
Qed.

(** When [makedirs] raises, so does the script, in the same world. *)
Lemma main_makedirs_raise (w w' : World) (e : exn) :
  makedirs "dist/icons" true w = Raise e w' -> main w = Raise e w'.
Proof. intros H. unfold main, bind. rewrite H. reflexivity. Qed.

(** C7: nothing is caught.  When the body fails for a size, the script ends
    with that very exception in the world of the failure: the files of the
    earlier sizes are in place with their bytes, the console holds the
    lines of the earlier sizes only, and the paths of the failing and the
    later sizes are as they were before the run. *)
Theorem C7_failure_stops_the_run
    (w wd w1 w2 : World) (pre post : list Z) (s : Z) (e : exn) :
  makedirs "dist/icons" true w = Ok tt wd ->
  [16; 48; 128] = pre ++ s :: post ->
  for_each pre body wd = Ok tt w1 ->
  body s w1 = Raise e w2 ->
  main w = Raise e w2 /\
  w2 = w1 /\
  console w2 = console w ++ map created pre /\
  (forall s', s' ∈ pre -> fs w2 !! icon_path s' = Some (File (icon_bytes s'))) /\
  (forall s', s' ∈ s :: post -> fs w2 !! icon_path s' = fs w !! icon_path s').
Proof.
  intros Hm Hsplit Hpre Hbody.
  assert (Hmain : main w = Raise e w2).
  { unfold main, bind. rewrite Hm, Hsplit, for_each_app, Hpre.
    cbn [for_each]. unfold bind. rewrite Hbody. reflexivity. }
  split; [exact Hmain|].
  apply body_raise_world in Hbody. subst w2. split; [reflexivity|].
  assert (Hin : forall s0, s0 ∈ pre -> s0 ∈ sizes).
  { intros s0 H0. unfold sizes. rewrite Hsplit. apply elem_of_app. left. exact H0. }
  assert (Hrest : forall s0, s0 ∈ s :: post -> s0 ∈ sizes).
  { intros s0 H0. unfold sizes. rewrite Hsplit. apply elem_of_app. right. exact H0. }
  pose proof sizes_nodup as Hnd. unfold sizes in Hnd. rewrite Hsplit in Hnd.
  apply NoDup_app in Hnd. destruct Hnd as (_ & Hdisj & _).
  apply makedirs_ok_inv in Hm. destruct Hm as (-> & _ & _).
  destruct (for_each_body_inv pre _ w1 Hin Hpre) as (_ & Hcon & Hfiles & Hother).
  cbn [fs denied console] in *.
  split; [exact Hcon|]. split; [exact Hfiles|].
  intros s' Hs'. rewrite Hother.
  - destruct (icon_path_not_dir s' (Hrest s' Hs')) as [Hd Hi].
    rewrite !ensure_dir_lookup_ne by assumption. reflexivity.
  - intros s0 H0 Heq.
    apply (Hdisj s0 H0).
    rewrite <- (icon_path_inj s' s0 (Hrest s' Hs') (Hin s0 H0) Heq). exact Hs'.
Qed.

(** ** The directory step *)

Lemma well_formed_parent (m : gmap path node) (p : path) (n : node) :
  well_formed m -> m !! p = Some n -> node_at m (parent p) = Some Dir.
Proof.
  intros Hwf Hp. destruct (Hwf p n Hp) as [_ H]. unfold is_dir in H.
  destruct (node_at m (parent p)) as [[|c]|]; congruence.
Qed.

(** C8: in a file system, [makedirs('dist/icons', exist_ok=True)] makes
    [dist] and [dist/icons] when [dist/icons] is missing (and no regular
    file [dist] nor a refusal of the operating system stands in the way),
    changes nothing when [dist/icons] is a directory, and raises
    [FileExistsError], which ends the script, when [dist/icons] is a regular
    file; it never completes without [dist/icons] being a directory. *)
Theorem C8_directory_step (w : World) :
  well_formed (fs w) ->
  (fs w !! icons_dir = None ->
   (forall c, fs w !! dist_dir <> Some (File c)) ->
   dist_dir ∉ denied w -> icons_dir ∉ denied w ->
   exists w',
     makedirs "dist/icons" true w = Ok tt w' /\
     fs w' !! dist_dir = Some Dir /\ fs w' !! icons_dir = Some Dir /\
     console w' = console w /\
     forall p, p <> dist_dir -> p <> icons_dir -> fs w' !! p = fs w !! p) /\
  (fs w !! icons_dir = Some Dir -> makedirs "dist/icons" true w = Ok tt w) /\
  (forall c, fs w !! icons_dir = Some (File c) ->
     makedirs "dist/icons" true w = Raise FileExistsError w /\
     main w = Raise FileExistsError w) /\
  (forall w', makedirs "dist/icons" true w = Ok tt w' -> fs w' !! icons_dir = Some Dir).
Proof.
  intros Hwf. split; [|split; [|split]].
  - intros Hi Hnf Hdd Hdi.
    assert (Hready : dirs_ready w).
    { unfold dirs_ready. rewrite Hi.
      destruct (fs w !! dist_dir) as [[|c]|] eqn:Ed; [assumption| |tauto].
      exfalso. apply (Hnf c). reflexivity. }
    pose proof (makedirs_ok w Hready) as Hm.
    eexists. split; [exact Hm|]. cbn [fs console].
    split; [|split; [|split]].
    + rewrite ensure_dir_lookup_ne by paths_differ.
      rewrite ensure_dir_lookup_eq.
      destruct (fs w !! dist_dir) as [[|c]|] eqn:Ed; try reflexivity.
      exfalso. apply (Hnf c). reflexivity.
    + apply ensure_dirs_icons, Hready.
    + reflexivity.
    + intros p Hd Hp. rewrite !ensure_dir_lookup_ne by assumption. reflexivity.
  - intros Hi. pose proof (well_formed_parent _ _ _ Hwf Hi) as Hpar.
    change (node_at (fs w) (parent icons_dir)) with (fs w !! dist_dir) in Hpar.
    rewrite makedirs_icons_cases, Hpar, Hi. reflexivity.
  - intros c Hi. pose proof (well_formed_parent _ _ _ Hwf Hi) as Hpar.
    change (node_at (fs w) (parent icons_dir)) with (fs w !! dist_dir) in Hpar.
    assert (Hm : makedirs "dist/icons" true w = Raise FileExistsError w)
      by (rewrite makedirs_icons_cases, Hpar, Hi; reflexivity).
    split; [exact Hm|]. apply main_makedirs_raise, Hm.
  - intros w' Hm. apply makedirs_ok_inv in Hm. tauto.
Qed.

(** ** Running again, and the output directory *)

Lemma elem_of_icon_files (m : gmap path node) (p : path) :
  p ∈ icon_files m <->
  is_file m p = true /\ matches_pattern (List.last p EmptyString) = true /\
  parent p = icons_dir.
Proof.
  unfold icon_files, listdir. rewrite !elem_of_filter, elem_of_dom. split.
  - tauto.
  - intros (Hf & Hm & Hp). repeat split; try assumption.
    + intros ->. discriminate Hp.
    + unfold is_file in Hf. destruct (m !! p); [eauto|discriminate].
Qed.

Lemma is_file_ensure_dir (q p : path) (m : gmap path node) :
  is_file (ensure_dir q m) p = is_file m p.
Proof.
  unfold is_file. destruct (decide (p = q)) as [->|Hne].
  - rewrite ensure_dir_lookup_eq. destruct (m !! q); reflexivity.
  - rewrite ensure_dir_lookup_ne by assumption. reflexivity.
Qed.

Lemma icon_path_cases (p : path) :
  (exists s, s ∈ sizes /\ p = icon_path s) \/
  (forall s, s ∈ sizes -> p <> icon_path s).
Proof.
  destruct (decide (p = icon_path 16)) as [->|H16];
    [left; exists 16; split; [apply in_sizes_16|reflexivity]|].
  destruct (decide (p = icon_path 48)) as [->|H48];
    [left; exists 48; split; [apply in_sizes_48|reflexivity]|].
  destruct (decide (p = icon_path 128)) as [->|H128];
    [left; exists 128; split; [apply in_sizes_128|reflexivity]|].
  right. intros s Hs. apply sizes_cases in Hs.
  destruct Hs as [-> | [-> | ->]]; assumption.
Qed.

Lemma is_file_after_run (m : gmap path node) (p : path) :
  is_file (after_run m) p = true <->
  is_file m p = true \/ exists s, s ∈ sizes /\ p = icon_path s.
Proof.
  destruct (icon_path_cases p) as [Hex|Hother].
  - split; [tauto|]. intros _. destruct Hex as (s & Hs & ->).
    unfold is_file. rewrite (after_run_icon s m Hs). reflexivity.
  - unfold is_file at 1. rewrite (after_run_other p m Hother).
    fold (is_file (ensure_dir icons_dir (ensure_dir dist_dir m)) p).
    rewrite !is_file_ensure_dir. split; [tauto|].
    intros [H|(s & Hs & Heq)]; [exact H|]. exfalso. exact (Hother s Hs Heq).
Qed.

Lemma icon_path_matches (s : Z) :
  s ∈ sizes ->
  matches_pattern (List.last (icon_path s) EmptyString) = true /\
  parent (icon_path s) = icons_dir.
Proof.
  intros Hs. apply sizes_cases in Hs.
  destruct Hs as [-> | [-> | ->]]; split; reflexivity.
Qed.

(** The matching files after a run: those from before, and the three. *)
Lemma icon_files_after_run (m : gmap path node) :
  icon_files (after_run m) =
  icon_files m ∪ {[ icon_path 16; icon_path 48; icon_path 128 ]}.
Proof.
  apply set_eq. intros p.
  rewrite elem_of_union, !elem_of_icon_files, is_file_after_run.
  rewrite !elem_of_union, !elem_of_singleton. split.
  - intros ([Hf|(s & Hs & ->)] & Hm & Hp); [tauto|].
    right. apply sizes_cases in Hs. destruct Hs as [-> | [-> | ->]]; tauto.
  - intros [(Hf & Hm & Hp)|Hp]; [tauto|].
    assert (Hex : exists s, s ∈ sizes /\ p = icon_path s).
    { destruct Hp as [[->| ->]| ->];
        [exists 16|exists 48|exists 128]; split; try reflexivity;
        [apply in_sizes_16|apply in_sizes_48|apply in_sizes_128]. }
    destruct Hex as (s & Hs & ->).
    destruct (icon_path_matches s Hs) as [Hm Hpar]. eauto 10.
Qed.

Lemma three_icons_size :
  size ({[ icon_path 16; icon_path 48; icon_path 128 ]} : gset path) = 3%nat.
Proof.
  rewrite !size_union, !size_singleton; [reflexivity| |].
  - apply disjoint_singleton_l, not_elem_of_singleton. paths_differ.
  - apply disjoint_singleton_r. rewrite not_elem_of_union, !not_elem_of_singleton.
    split; paths_differ.
Qed.

(** The world a run leaves is ready for another. *)
Lemma after_run_ready (w : World) :
  ready w ->
  ready (mkWorld (after_run (fs w)) (denied w) (console w ++ map created sizes)).
Proof.
  intros [Hdirs Houts]. split.
  - unfold dirs_ready. cbn [fs denied].
    rewrite after_run_dist_dir, (after_run_icons_dir w Hdirs).
    destruct (default Dir (fs w !! dist_dir)); exact I.
  - intros s Hs. cbn [fs denied]. rewrite (after_run_icon s _ Hs).
    split; [discriminate|]. apply Houts, Hs.
Qed.

Lemma after_run_idem (w : World) :
  dirs_ready w -> after_run (after_run (fs w)) = after_run (fs w).
Proof.
  intros Hdirs. unfold after_run at 1.
  assert (E1 : ensure_dir dist_dir (after_run (fs w)) = after_run (fs w)).
  { unfold ensure_dir. rewrite after_run_dist_dir. reflexivity. }
  assert (E2 : ensure_dir icons_dir (after_run (fs w)) = after_run (fs w)).
  { unfold ensure_dir. rewrite (after_run_icons_dir w Hdirs). reflexivity. }
  rewrite E1, E2.
  rewrite (insert_id _ (icon_path 16)) by apply after_run_icon, in_sizes_16.
  rewrite (insert_id _ (icon_path 48)) by apply after_run_icon, in_sizes_48.
  apply insert_id, after_run_icon, in_sizes_128.
Qed.

(** C6, as the script has it: every completed run writes the same bytes to
    the three files whatever the world it started in, and a second run
    leaves the file system exactly as the first left it; the files of
    [dist/icons] that match [icon{size}.png] after a completed run are those
    that matched before it together with [icon16.png], [icon48.png] and
    [icon128.png], so there are exactly 3 of them when no other one was
    there before. *)
Theorem C6_rerun_and_listing (w w' : World) :
  main w = Ok tt w' ->
  (forall v v', main v = Ok tt v' ->
     forall s, s ∈ sizes ->
       fs v' !! icon_path s = Some (File (icon_bytes s)) /\
       fs v' !! icon_path s = fs w' !! icon_path s) /\
  (exists w'', main w' = Ok tt w'' /\ fs w'' = fs w') /\
  icon_files (fs w') =
    icon_files (fs w) ∪ {[ icon_path 16; icon_path 48; icon_path 128 ]} /\
  (icon_files (fs w) ⊆ {[ icon_path 16; icon_path 48; icon_path 128 ]} ->
   size (icon_files (fs w')) = 3%nat).
Proof.
  intros H. apply main_ok_inv in H. destruct H as [-> Hready].
  cbn [fs]. split; [|split; [|split]].
  - intros v v' Hv s Hs. apply main_ok_inv in Hv. destruct Hv as [-> _].
    cbn [fs]. rewrite !(after_run_icon s _ Hs). split; reflexivity.
  - eexists. split; [apply main_ok, after_run_ready, Hready|].
    cbn [fs]. apply after_run_idem, Hready.
  - apply icon_files_after_run.
  - intros Hsub. rewrite icon_files_after_run.
    rewrite (subseteq_union_1_L _ _ Hsub). apply three_icons_size.
Qed.

(** ** One file per size *)

Lemma elem_of_listdir (m : gmap path node) (d p : path) :
  p ∈ listdir m d <-> p <> [] /\ parent p = d /\ is_Some (m !! p).
Proof.
  unfold listdir. rewrite elem_of_filter, elem_of_dom. tauto.
Qed.

Lemma ensure_dir_is_Some (q p : path) (m : gmap path node) :
  is_Some (ensure_dir q m !! p) <-> is_Some (m !! p) \/ p = q.
Proof.
  destruct (decide (p = q)) as [->|Hne].
  - rewrite ensure_dir_lookup_eq. split; [tauto|]. intros _. eauto.
  - rewrite ensure_dir_lookup_ne by assumption. tauto.
Qed.

(** The entries of [dist/icons] after a run: those from before, and the
    three files. *)
Lemma listdir_after_run (m : gmap path node) :
  listdir (after_run m) icons_dir =
  listdir m icons_dir ∪ {[ icon_path 16; icon_path 48; icon_path 128 ]}.
Proof.
  apply set_eq. intros p.
  rewrite elem_of_union, !elem_of_listdir, !elem_of_union, !elem_of_singleton.
  destruct (icon_path_cases p) as [(s & Hs & ->)|Hother].
  - rewrite (after_run_icon s m Hs).
    destruct (icon_path_matches s Hs) as [_ Hpar].
    assert (Hne : icon_path s <> []) by (intros E; rewrite E in Hpar; discriminate Hpar).
    split; [|intros _; eauto].
    intros _. right. apply sizes_cases in Hs.
    destruct Hs as [-> | [-> | ->]]; tauto.
  - rewrite (after_run_other p m Hother), !ensure_dir_is_Some. split.
    + intros (Hne & Hpar & [[H|H]|H]); [tauto| |];
        subst p; discriminate Hpar.
    + intros [H|[[H|H]|H]]; [tauto| | |]; exfalso.
      * apply (Hother 16 in_sizes_16 H).
      * apply (Hother 48 in_sizes_48 H).
      * apply (Hother 128 in_sizes_128 H).
Qed.

Lemma icon_paths_nodup : NoDup (icon_path <$> sizes).
Proof.
  apply NoDup_fmap_2_strong; [|apply sizes_nodup].
  intros s s' Hs Hs' H. apply (icon_path_inj s s' Hs Hs' H).
Qed.

(** C3: for each size of the fixed set, the image is [size] pixels wide and
    [size] pixels high, its corner pixel has the background colour of
    [#4CAF50] and its centre pixel the fill colour of [white], and the two
    colours differ; the three sizes have three different paths, every ready
    world gives a completed run, and a completed run holds this image at
    the path of the size and has put into [dist/icons] the three files and
    nothing else. *)
Theorem C3_one_square_file_per_size (size : Z) :
  size ∈ sizes ->
  exists img bg fg,
    draw_icon size = Val img /\ icon_bytes size = png_encode img /\
    width img = size /\ height img = size /\
    Z.of_nat (length (im_data img)) = size /\
    Forall (fun row => Z.of_nat (length row) = size) (im_data img) /\
    getrgb "#4CAF50" = Some bg /\ getrgb "white" = Some fg /\ bg <> fg /\
    pixel_at img (0, 0) = Some bg /\
    pixel_at img (size / 2, size / 2) = Some fg /\
    NoDup sizes /\ NoDup (icon_path <$> sizes) /\
    (forall size', size' ∈ sizes -> icon_path size' = icon_path size -> size' = size) /\
    (forall w, ready w ->
       exists w', main w = Ok tt w' /\
                  fs w' !! icon_path size = Some (File (png_encode img))) /\
    (forall w w', main w = Ok tt w' ->
       fs w' !! icon_path size = Some (File (png_encode img)) /\
       listdir (fs w') icons_dir =
         listdir (fs w) icons_dir ∪ {[ icon_path 16; icon_path 48; icon_path 128 ]}).
Proof.
  intros Hs. destruct (draw_icon_sizes size Hs) as [img Hd].
  assert (H6 : 6 <= size) by (apply sizes_cases in Hs; lia).
  pose proof (draw_icon_size size img ltac:(lia) Hd) as (_ & Hw & Hh & Hrows & Hcols).
  pose proof (icon_bytes_val size img Hd) as Hb.
  exists img, green, white.
  split; [exact Hd|]. split; [exact Hb|].
  split; [exact Hw|]. split; [exact Hh|]. split; [exact Hrows|]. split; [exact Hcols|].
  split; [reflexivity|]. split; [reflexivity|]. split; [discriminate|].
  split.
  { apply (pixel_outside size 0 0 img Hd); [lia|lia|].
    apply outside_square_outside_bbox; [lia|].
    left. Z.to_euclidean_division_equations. lia. }
  split.
  { assert (Hc : 0 <= size / 2 < size) by (Z.to_euclidean_division_equations; lia).
    apply (pixel_inside size _ _ img _ _ _ Hd (points_flat size) Hc Hc
             (centre_strictly_inside size H6)). }
  split; [apply sizes_nodup|]. split; [apply icon_paths_nodup|].
  split; [intros size' Hs' H; apply (icon_path_inj size' size Hs' Hs H)|].
  split.
  - intros w Hready. eexists. split; [apply main_ok, Hready|].
    cbn [fs]. rewrite <- Hb. apply after_run_icon, Hs.
  - intros w w' H. apply main_ok_inv in H. destruct H as [-> _].
    cbn [fs]. split; [rewrite <- Hb; apply after_run_icon, Hs|].
    apply listdir_after_run.
Qed.

End Running.

(** ** File names for any size *)

Lemma string_forall_app (f : ascii -> bool) (s t : string) :
  string_forall f (s +:+ t) = string_forall f s && string_forall f t.
Proof.
  induction s as [|c s IH]; [reflexivity|].
  simpl. rewrite IH, andb_assoc. reflexivity.
Qed.

Lemma string_forall_impl (f g : ascii -> bool) (s : string) :
  (forall c, f c = true -> g c = true) ->
  string_forall f s = true -> string_forall g s = true.
Proof.
  intros Hfg. induction s as [|c s IH]; [reflexivity|].
  cbn [string_forall]. rewrite !andb_true_iff. intros [Hc Hs]. auto.
Qed.

Lemma pretty_N_char_digit (n : N) : is_digit (pretty_N_char n) = true.
Proof. unfold pretty_N_char. repeat case_match; reflexivity. Qed.

(** The decimal printer puts digits in front of what it is given. *)
Lemma pretty_N_go_digits (x : N) (s : string) :
  string_forall is_digit s = true ->
  string_forall is_digit (pretty_N_go x s) = true.
Proof.
  revert s. induction (N.lt_wf_0 x) as [x _ IH]. intros s Hs.
  destruct (decide (x = 0)%N) as [->|Hx]; [rewrite pretty_N_go_0; exact Hs|].
  rewrite pretty_N_go_step by lia. apply IH.
  - apply N.div_lt; lia.
  - cbn [string_forall]. rewrite pretty_N_char_digit, Hs. reflexivity.
Qed.

Lemma pretty_N_go_nonempty (x : N) (s : string) :
  s <> EmptyString -> pretty_N_go x s <> EmptyString.
Proof.
  revert s. induction (N.lt_wf_0 x) as [x _ IH]. intros s Hs.
  destruct (decide (x = 0)%N) as [->|Hx]; [rewrite pretty_N_go_0; exact Hs|].
  rewrite pretty_N_go_step by lia. apply IH; [apply N.div_lt; lia|discriminate].
Qed.

Lemma pretty_N_digits (x : N) :
  string_forall is_digit (pretty x) = true /\ pretty x <> EmptyString.
Proof.
  unfold pretty, pretty_N. case_decide; [split; [reflexivity|discriminate]|].
  split; [apply pretty_N_go_digits; reflexivity|].
  rewrite pretty_N_go_step by lia. apply pretty_N_go_nonempty. discriminate.
Qed.

(** A size that is not negative prints as one or more digits. *)
Lemma pretty_Z_digits (size : Z) :
  0 <= size ->
  string_forall is_digit (pretty size) = true /\ pretty size <> EmptyString.
Proof.
  intros Hs. destruct size as [|p|p]; [split; [reflexivity|discriminate]| |lia].
  apply (pretty_N_digits (Npos p)).
Qed.

Lemma digit_not_slash (c : ascii) : is_digit c = true -> not_slash c = true.
Proof.
  intros H. unfold not_slash. case_bool_decide as E; [|reflexivity].
  subst c. discriminate H.
Qed.

(** No size prints with a slash in it. *)
Lemma pretty_Z_no_slash (size : Z) : string_forall not_slash (pretty size) = true.
Proof.
  destruct size as [|p|p]; [reflexivity| |].
  - apply (string_forall_impl is_digit); [apply digit_not_slash|].
    apply (pretty_N_digits (Npos p)).
  - change (pretty (Z.neg p)) with ("-" +:+ pretty (Npos p)).
    rewrite string_forall_app. apply andb_true_iff. split; [reflexivity|].
    apply (string_forall_impl is_digit); [apply digit_not_slash|].
    apply (pretty_N_digits (Npos p)).
Qed.

Lemma split_slash_nonempty (s : string) : split_slash s <> [].
Proof.
  destruct s as [|c s]; [discriminate|]. cbn [split_slash].
  case_bool_decide; [discriminate|]. destruct (split_slash s); discriminate.
Qed.

(** A string without a slash is one component. *)
Lemma split_slash_no_slash (s : string) :
  string_forall not_slash s = true -> split_slash s = [s].
Proof.
  induction s as [|c s IH]; [reflexivity|].
  cbn [string_forall split_slash]. rewrite andb_true_iff. intros [Hc Hs].
  unfold not_slash in Hc. destruct (bool_decide (c = "/"%char)); [discriminate|].
  rewrite (IH Hs). reflexivity.
Qed.

(** The output path of any size: the file [icon{size}.png], directly in
    [dist/icons]. *)
Lemma icon_path_any (size : Z) :
  icon_path size = icons_dir ++ ["icon" +:+ pretty size +:+ ".png"].
Proof.
  unfold icon_path, components.
  assert (Hns : string_forall not_slash (pretty size +:+ ".png") = true).
  { rewrite string_forall_app, pretty_Z_no_slash. reflexivity. }
  simpl.
  change ("" +:+ pretty size +:+ ".png") with (pretty size +:+ ".png").
  rewrite (split_slash_no_slash _ Hns). reflexivity.
Qed.

Lemma string_length_app (s t : string) :
  String.length (s +:+ t) = (String.length s + String.length t)%nat.
Proof. induction s as [|c s IH]; simpl; [reflexivity|]. rewrite IH. reflexivity. Qed.

Lemma string_app_inj_r (t s1 s2 : string) : s1 +:+ t = s2 +:+ t -> s1 = s2.
Proof.
  revert s2. induction s1 as [|c s1 IH]; intros [|c2 s2] H.
  - reflexivity.
  - apply (f_equal String.length) in H.
    rewrite (string_length_app (String c2 s2) t) in H.
    change ("" +:+ t) with t in H. simpl in H. lia.
  - apply (f_equal String.length) in H.
    rewrite (string_length_app (String c s1) t) in H.
    change ("" +:+ t) with t in H. simpl in H. lia.
  - simpl in H. injection H as -> H. f_equal. apply IH, H.
Qed.

(** Two sizes never share an output path. *)
Lemma icon_path_inj_any (s s' : Z) : icon_path s = icon_path s' -> s = s'.
Proof.
  rewrite !icon_path_any. intros H. apply app_inv_head in H.
  injection H as H.
  change (pretty s +:+ ".png" = pretty s' +:+ ".png") in H.
  apply string_app_inj_r in H. apply (inj pretty) in H. exact H.
Qed.

Lemma icon_path_parent_any (size : Z) :
  icon_path size <> [] /\ parent (icon_path size) = icons_dir /\
  icon_path size <> dist_dir /\ icon_path size <> icons_dir.
Proof.
  rewrite icon_path_any. repeat split; try discriminate. 
Qed.



Lemma drop_digits_app (d t : string) :
  string_forall is_digit d = true -> drop_digits (d +:+ t) = drop_digits t.
Proof.
  induction d as [|c d IH]; [reflexivity|].
  cbn [string_forall]. rewrite andb_true_iff. intros [Hc Hd].
  change (String c d +:+ t) with (String c (d +:+ t)).
  cbn [drop_digits]. rewrite Hc. apply IH, Hd.
Qed.

(** ** The loop body and the loop, for any sizes *)

Section AnySize.

Context {pil : Pillow}.

Lemma body_negative (size : Z) (w : World) :
  size < 0 -> body size w = Raise ValueError w.
Proof.
  intros Hs. unfold body, bind, lift. rewrite draw_icon_negative by assumption.
  reflexivity.
Qed.

(** The loop body for a size that is not negative, case by case. *)
Lemma body_cases_any (size : Z) (w : World) :
  0 <= size ->
  body size w =
  match fs w !! icon_path size with
  | Some Dir => Raise IsADirectoryError w
  | _ =>
      match fs w !! icons_dir with
      | None => Raise FileNotFoundError w
      | Some (File _) => Raise NotADirectoryError w
      | Some Dir =>
          if bool_decide (icon_path size ∈ denied w) then Raise PermissionError w
          else Ok tt (mkWorld (<[icon_path size := File (icon_bytes size)]> (fs w))
                        (denied w) (console w ++ [created size]))
      end
  end.
Proof.
  intros Hs. destruct (icon_path_parent_any size) as (Hne & Hpar & _).
  unfold body, bind, lift, icon_bytes. rewrite (draw_icon_val size Hs).
  unfold save, print. fold (icon_path size). rewrite Hpar.
  change (node_at (fs w) icons_dir) with (fs w !! icons_dir).
  replace (node_at (fs w) (icon_path size)) with (fs w !! icon_path size)
    by (destruct (icon_path size); [congruence|reflexivity]).
  destruct (fs w !! icon_path size) as [[|c]|];
    destruct (fs w !! icons_dir) as [[|c']|]; try reflexivity;
    destruct (bool_decide (icon_path size ∈ denied w)); reflexivity.
Qed.

End AnySize.

Section AnyLoop.

Context {pil : Pillow}.

Lemma body_ok_inv_any (size : Z) (w w' : World) :
  body size w = Ok tt w' ->
  0 <= size /\
  w' = mkWorld (<[icon_path size := File (icon_bytes size)]> (fs w))
         (denied w) (console w ++ [created size]) /\
  fs w !! icons_dir = Some Dir /\
  fs w !! icon_path size <> Some Dir /\
  (icon_path size ∉ denied w).
Proof.
  intros H. destruct (Z_lt_ge_dec size 0) as [Hneg|Hpos].
  { rewrite body_negative in H by assumption. discriminate H. }
  split; [lia|]. rewrite body_cases_any in H by lia.
  destruct (fs w !! icon_path size) as [[|c]|];
    destruct (fs w !! icons_dir) as [[|c']|]; try discriminate;
    case_bool_decide; try discriminate;
    injection H as <-; repeat split; congruence.
Qed.

(** X1 (lines 9-25): for a negative size the body raises [ValueError] and
    leaves the world as it was; and whenever the body completes, the size
    is not negative, [dist/icons] was a directory, and the body has saved
    exactly the file of the size and printed exactly its line. *)
Theorem body_effect (size : Z) (w : World) :
  (size < 0 -> body size w = Raise ValueError w) /\
  forall w', body size w = Ok tt w' ->
    0 <= size /\ fs w !! icons_dir = Some Dir /\
    w' = mkWorld (<[icon_path size := File (icon_bytes size)]> (fs w))
           (denied w) (console w ++ [created size]).
Proof.
  split; [apply body_negative|].
  intros w' H. apply body_ok_inv_any in H. tauto.
Qed.

(** What the loop has done once it got through a list of sizes. *)
Lemma loop_effect (l : list Z) (wd w1 : World) :
  for_each l body wd = Ok tt w1 ->
  Forall (fun s => 0 <= s) l /\
  denied w1 = denied wd /\
  console w1 = console wd ++ map created l /\
  (forall s, s ∈ l -> fs w1 !! icon_path s = Some (File (icon_bytes s))) /\
  (forall p, (forall s, s ∈ l -> p <> icon_path s) -> fs w1 !! p = fs wd !! p).
Proof.
  revert wd. induction l as [|s rest IH]; intros wd H.
  - cbn in H. injection H as <-. rewrite app_nil_r.
    repeat split; try reflexivity; [constructor|]. intros s Hs. inversion Hs.
  - cbn [for_each] in H. unfold bind in H.
    destruct (body s wd) as [[] w'|e w'] eqn:Eb; [|discriminate].
    apply body_ok_inv_any in Eb. destruct Eb as (Hs & -> & _ & _ & _).
    apply IH in H. cbn [fs denied console] in H.
    destruct H as (Hall & Hden & Hcon & Hfiles & Hother).
    split; [constructor; assumption|]. split; [exact Hden|].
    split; [rewrite Hcon, <- app_assoc; reflexivity|]. split.
    + intros s0 Hs0. destruct (decide (s0 ∈ rest)) as [Hr|Hr]; [apply Hfiles, Hr|].
      apply elem_of_cons in Hs0. destruct Hs0 as [->|Hs0]; [|contradiction].
      rewrite Hother, lookup_insert_eq; [reflexivity|].
      intros s1 Hs1 Heq. apply Hr. rewrite (icon_path_inj_any s s1 Heq). exact Hs1.
    + intros p Hp. rewrite Hother by (intros s0 H0; apply Hp; right; exact H0).
      apply lookup_insert_ne, not_eq_sym, Hp. left.
Qed.

(** When the loop of the model gets through a list of sizes.  (The model
    has no failure for an image without pixels or too large to
    allocate.) *)
Lemma loop_completes (l : list Z) (wd : World) :
  (exists w1, for_each l body wd = Ok tt w1) <->
  (l = [] \/ fs wd !! icons_dir = Some Dir) /\
  forall s, s ∈ l ->
    0 <= s /\ fs wd !! icon_path s <> Some Dir /\ (icon_path s ∉ denied wd).
Proof.
  revert wd. induction l as [|s rest IH]; intros wd.
  - split.
    + intros _. split; [left; reflexivity|]. intros s Hs. inversion Hs.
    + intros _. exists wd. reflexivity.
  - cbn [for_each]. unfold bind. split.
    + intros [w1 H].
      destruct (body s wd) as [[] w'|e w'] eqn:Eb; [|discriminate].
      apply body_ok_inv_any in Eb. destruct Eb as (Hs & -> & Hdir & Hnd & Hden).
      assert (Hrest : exists w1, for_each rest body
                (mkWorld (<[icon_path s := File (icon_bytes s)]> (fs wd))
                   (denied wd) (console wd ++ [created s])) = Ok tt w1) by eauto.
      apply IH in Hrest. cbn [fs denied] in Hrest. destruct Hrest as [_ Hrest].
      split; [right; exact Hdir|].
      intros s0 Hs0. apply elem_of_cons in Hs0. destruct Hs0 as [->|Hs0]; [tauto|].
      destruct (Hrest s0 Hs0) as (H0 & Hnd0 & Hden0).
      split; [exact H0|]. split; [|exact Hden0].
      destruct (decide (icon_path s0 = icon_path s)) as [E|E]; [rewrite E; exact Hnd|].
      rewrite lookup_insert_ne in Hnd0 by congruence. exact Hnd0.
    + intros [Hdir Hall].
      destruct Hdir as [Hnil|Hdir]; [discriminate|].
      destruct (Hall s ltac:(left)) as (Hs & Hnd & Hden).
      rewrite body_cases_any, Hdir by assumption.
      rewrite bool_decide_eq_false_2 by assumption.
      assert (Hbody : match fs wd !! icon_path s with
               | Some Dir => Raise IsADirectoryError wd
               | _ => Ok tt (mkWorld (<[icon_path s := File (icon_bytes s)]> (fs wd))
                               (denied wd) (console wd ++ [created s]))
               end = Ok tt (mkWorld (<[icon_path s := File (icon_bytes s)]> (fs wd))
                               (denied wd) (console wd ++ [created s]))).
      { destruct (fs wd !! icon_path s) as [[|c]|]; congruence. }
      rewrite Hbody. apply IH. cbn [fs denied]. split.
      * right. rewrite lookup_insert_ne; [exact Hdir|].
        apply (icon_path_parent_any s).
      * intros s0 Hs0. destruct (Hall s0 ltac:(right; exact Hs0)) as (H0 & Hnd0 & Hden0).
        split; [exact H0|]. split; [|exact Hden0].
        destruct (decide (icon_path s = icon_path s0)) as [E|E].
        -- rewrite <- E, lookup_insert_eq. discriminate.
        -- rewrite lookup_insert_ne by exact E. exact Hnd0.
Qed.

(** X2 (lines 8-25): what the loop has done once it got through any list
    of sizes, repeated sizes included: one line per size in order, the
    file of each size with its bytes, every other path as before. *)
Theorem loop_effect_any_sizes (l : list Z) (wd w1 : World) :
  for_each l body wd = Ok tt w1 ->
  Forall (fun s => 0 <= s) l /\
  denied w1 = denied wd /\
  console w1 = console wd ++ map created l /\
  (forall s, s ∈ l -> fs w1 !! icon_path s = Some (File (icon_bytes s))) /\
  (forall p, (forall s, s ∈ l -> p <> icon_path s) -> fs w1 !! p = fs wd !! p).
Proof. apply loop_effect. Qed.


End AnyLoop.

(** ** Names of the output files *)

(** X4 (line 24): for every size the file is [icon{size}.png] directly
    inside [dist/icons], and two different sizes never get the same path. *)
Theorem output_paths_never_collide (size : Z) :
  icon_path size = ["dist"; "icons"; "icon" +:+ pretty size +:+ ".png"]%string /\
  parent (icon_path size) = icons_dir /\
  forall size', icon_path size = icon_path size' -> size = size'.
Proof.
  split; [apply icon_path_any|]. split; [apply icon_path_parent_any|].
  intros size'. apply icon_path_inj_any.
Qed.

(** X5 (line 24): the name [icon{size}.png] is [icon], one or more digits,
    [.png] exactly when the size is not negative. *)
Theorem file_name_matches_pattern_iff (size : Z) :
  matches_pattern ("icon" +:+ pretty size +:+ ".png") = true <-> 0 <= size.
Proof.
  unfold matches_pattern.
  change (strip_prefix "icon" ("icon" +:+ pretty size +:+ ".png"))
    with (Some (pretty size +:+ ".png")).
  split.
  - intros H. destruct size as [|p|p]; [lia|lia|].
    exfalso. change (pretty (Z.neg p)) with ("-" +:+ pretty (Npos p)) in H.
    change (("-" +:+ pretty (N.pos p)) +:+ ".png")
      with (String "-" (pretty (N.pos p) +:+ ".png")) in H.
    cbn [drop_digits] in H.
    change (is_digit "-") with false in H. cbv iota in H.
    rewrite bool_decide_eq_true_2 in H by reflexivity. discriminate H.
  - intros Hs. destruct (pretty_Z_digits size Hs) as [Hd Hne].
    rewrite (drop_digits_app _ _ Hd).
    change (drop_digits ".png") with ".png"%string.
    rewrite bool_decide_eq_false_2; [reflexivity|].
    intros E. apply Hne.
    apply (string_app_inj_r ".png"). symmetry. exact E.
Qed.

(** ** The triangle and the image, for any size *)

(** X6 (lines 13-21): the base of the triangle is horizontal, the apex sits
    over the middle of the base, and the triangle is as wide as it is high;
    for a size that is not negative the apex is not below the base, and
    from size 6 on it is strictly above it and the triangle has an area. *)
Theorem triangle_points_up (size : Z) :
  exists apex left right,
    points size = [apex; left; right] /\
    snd left = snd right /\
    fst left + fst right = 2 * fst apex /\
    fst right - fst left = snd left - snd apex /\
    (0 <= size -> snd apex <= snd left /\ fst left <= fst right) /\
    (6 <= size -> snd apex < snd left /\ fst left < fst right /\
                  edge apex left right <> 0).
Proof.
  eexists _, _, _. split; [apply points_flat|]. cbn [fst snd].
  split; [reflexivity|]. split; [lia|]. split; [lia|]. split.
  - intros Hs. assert (0 <= size / 6) by (apply Z.div_pos; lia). lia.
  - intros Hs. assert (1 <= size / 6) by (apply Z.div_le_lower_bound; lia).
    split; [lia|]. split; [lia|]. unfold edge. cbn [fst snd]. nia.
Qed.

Section AnyImage.

Context {pil : Pillow}.

(** X7 (lines 9-23): a negative size gives [ValueError]; an image that is
    made has a size that is not negative, is [size] by [size], every pixel
    on the canvas is the background green or the fill white, and there is
    no pixel off the canvas. *)
Theorem image_two_colours (size : Z) :
  (size < 0 -> draw_icon size = Exc ValueError) /\
  forall img, draw_icon size = Val img ->
    0 <= size /\ width img = size /\ height img = size /\
    forall x y,
      (0 <= x < size /\ 0 <= y < size ->
         pixel_at img (x, y) = Some (76, 175, 80) \/
         pixel_at img (x, y) = Some (255, 255, 255)) /\
      (~ (0 <= x < size /\ 0 <= y < size) -> pixel_at img (x, y) = None).
Proof.
  split; [apply draw_icon_negative|].
  intros img H.
  assert (Hs : 0 <= size).
  { destruct (Z_lt_ge_dec size 0) as [Hneg|Hpos]; [|lia].
    rewrite draw_icon_negative in H by assumption. discriminate H. }
  destruct (draw_icon_size size img Hs H) as (_ & Hw & Hh & _).
  split; [exact Hs|]. split; [exact Hw|]. split; [exact Hh|]. intros x y. split.
  - intros [Hx Hy]. rewrite (draw_icon_pixel size x y img H Hx Hy).
    destruct (covers (points size) (x, y)); [right|left]; reflexivity.
  - intros Hoff. unfold pixel_at. rewrite Hw, Hh.
    destruct ((0 <=? x) && (x <? size) && (0 <=? y) && (y <? size)) eqn:E;
      [|reflexivity].
    exfalso. apply Hoff.
    repeat (apply andb_true_iff in E; destruct E as [E ?]). lia.
Qed.

(** X8 (lines 13-23): in the image of a size of at least 6, the pixel
    [(size//2, size//2)] is white. *)
Theorem centre_is_white_from_6 (size : Z) (img : Image) :
  draw_icon size = Val img ->
  6 <= size ->
  pixel_at img (size / 2, size / 2) = Some (255, 255, 255).
Proof.
  intros Hd Hs.
  assert (Hc : 0 <= size / 2 < size) by (Z.to_euclidean_division_equations; lia).
  apply (pixel_inside size _ _ img _ _ _ Hd (points_flat size) Hc Hc
           (centre_strictly_inside size Hs)).
Qed.

(** X9 (lines 13-23): white stays within the square of side [2 * (size//6)]
    around the centre; every pixel of the canvas outside it keeps the
    background colour. *)
Theorem margin_is_background (size x y : Z) (img : Image) :
  draw_icon size = Val img ->
  0 <= x < size -> 0 <= y < size ->
  x < size / 2 - size / 6 \/ size / 2 + size / 6 < x \/
  y < size / 2 - size / 6 \/ size / 2 + size / 6 < y ->
  pixel_at img (x, y) = Some (76, 175, 80).
Proof.
  intros Hd Hx Hy Hout.
  apply (pixel_outside size x y img Hd Hx Hy).
  apply outside_square_outside_bbox; [lia|exact Hout].
Qed.

(** X10 (lines 9-23): in the image of a size of at least 3, the four
    corner pixels keep the background colour. *)
Theorem corners_are_background_from_3 (size : Z) (img : Image) :
  draw_icon size = Val img ->
  3 <= size ->
  Forall (fun corner => pixel_at img corner = Some (76, 175, 80))
         [ (0, 0); (size - 1, 0); (0, size - 1); (size - 1, size - 1) ].
Proof.
  intros Hd Hs.
  repeat apply List.Forall_cons; try apply List.Forall_nil;
    (apply (pixel_outside size _ _ _ Hd); [lia|lia|]);
    (apply outside_square_outside_bbox; [lia|]);
    Z.to_euclidean_division_equations; lia.
Qed.

End AnyImage.

(** ** Properties kept by every statement *)

Section Keeping.

Variable P : World -> Prop.

Lemma keeps_ret {A : Type} (a : A) : keeps P (ret a).
Proof. intros w H. exact H. Qed.

Lemma keeps_raise {A : Type} (e : exn) : keeps P (@raise A e).
Proof. intros w H. exact H. Qed.

Lemma keeps_lift {A : Type} (o : outcome A) : keeps P (lift o).
Proof. intros w H. unfold lift. destruct o; exact H. Qed.

Lemma keeps_bind {A B : Type} (m : M A) (k : A -> M B) :
  keeps P m -> (forall a, keeps P (k a)) -> keeps P (bind m k).
Proof.
  intros Hm Hk w H. unfold bind. specialize (Hm w H).
  destruct (m w) as [a w'|e w']; [apply Hk, Hm|exact Hm].
Qed.

Lemma keeps_try_except {A : Type} (m : M A) (h : exn -> M A) :
  keeps P m -> (forall e, keeps P (h e)) -> keeps P (try_except m h).
Proof.
  intros Hm Hh w H. unfold try_except. specialize (Hm w H).
  destruct (m w) as [a w'|e w']; [exact Hm|apply Hh, Hm].
Qed.

Lemma keeps_for_each {A : Type} (l : list A) (f : A -> M unit) :
  (forall x, keeps P (f x)) -> keeps P (for_each l f).
Proof.
  intros Hf. induction l as [|x l IH]; [apply keeps_ret|].
  cbn [for_each]. apply keeps_bind; [apply Hf|intros _; exact IH].
Qed.

Lemma keeps_path_exists (p : path) : keeps P (path_exists p).
Proof. intros w H. unfold path_exists. destruct (node_at (fs w) p); exact H. Qed.

Lemma keeps_isdir (p : path) : keeps P (isdir p).
Proof.
  intros w H. unfold isdir. destruct (node_at (fs w) p) as [[|c]|]; exact H.
Qed.

(** [makedirs] keeps what [mkdir] keeps, [main] what [mkdir], [save] and
    [print] keep. *)
Lemma keeps_makedirs (name : string) (exist_ok : bool) :
  (forall p, keeps P (mkdir p)) -> keeps P (makedirs name exist_ok).
Proof.
  intros Hmk. unfold makedirs. generalize (rev (components name)).
  intros rname. induction rname as [|tail rhead IH]; [apply Hmk|].
  cbn [makedirs_rev]. apply keeps_bind.
  - apply keeps_bind; [apply keeps_path_exists|]. intros there.
    destruct (bool_decide (rev rhead <> []) && negb there); [|apply keeps_ret].
    apply keeps_try_except; [exact IH|].
    intros e. destruct e; (apply keeps_ret || apply keeps_raise).
  - intros _. unfold mkdir_last. apply keeps_try_except; [apply Hmk|].
    intros e. apply keeps_bind; [apply keeps_isdir|]. intros d.
    destruct (is_OSError e && (negb exist_ok || negb d)); [apply keeps_raise|].
    destruct (is_OSError e); [apply keeps_ret|apply keeps_raise].
Qed.

Lemma keeps_main {pil : Pillow} :
  (forall p, keeps P (mkdir p)) ->
  (forall img fp, keeps P (save img fp)) ->
  (forall s, keeps P (print s)) ->
  keeps P main.
Proof.
  intros Hmk Hsave Hprint. unfold main. apply keeps_bind.
  - apply keeps_makedirs, Hmk.
  - intros _. apply keeps_for_each. intros size. unfold body.
    apply keeps_bind; [apply keeps_lift|]. intros img.
    apply keeps_bind; [apply Hsave|]. intros _. apply Hprint.
Qed.

End Keeping.

(** ** The file system stays a file system *)

Lemma parent_shorter (p : path) : p <> [] -> parent p <> p.
Proof.
  intros Hp E. destruct (exists_last Hp) as (l & a & ->).
  unfold parent in E. rewrite removelast_last in E.
  apply (f_equal (@length string)) in E. rewrite length_app in E.
  cbn in E. lia.
Qed.

(** A new entry under a directory, at a path that is not a directory. *)
Lemma well_formed_insert (m : gmap path node) (p : path) (n : node) :
  well_formed m -> p <> [] ->
  node_at m (parent p) = Some Dir -> m !! p <> Some Dir ->
  well_formed (<[p := n]> m).
Proof.
  intros Hwf Hp Hpar Hnd q nq Hq.
  assert (Hdir : forall r, r <> p -> is_dir m r = true -> is_dir (<[p := n]> m) r = true).
  { intros r Hr. unfold is_dir, node_at. destruct r; [tauto|].
    rewrite lookup_insert_ne by congruence. tauto. }
  destruct (decide (q = p)) as [->|Hne].
  - split; [exact Hp|]. apply Hdir; [apply parent_shorter, Hp|].
    unfold is_dir. rewrite Hpar. reflexivity.
  - rewrite lookup_insert_ne in Hq by congruence.
    destruct (Hwf q nq Hq) as [Hq0 Hqd]. split; [exact Hq0|].
    apply Hdir; [|exact Hqd]. intros E. rewrite E in Hqd.
    unfold is_dir, node_at in Hqd. destruct p; [congruence|].
    destruct (m !! (s :: p)) as [[|c]|]; congruence.
Qed.

Section WellFormed.

Context {pil : Pillow}.

Lemma keeps_well_formed_mkdir (p : path) :
  keeps (fun w => well_formed (fs w)) (mkdir p).
Proof.
  intros w Hwf. unfold mkdir. destruct p as [|c p]; [exact Hwf|].
  destruct (fs w !! (c :: p)) eqn:E; [exact Hwf|].
  destruct (node_at (fs w) (parent (c :: p))) as [[|content]|] eqn:Epar;
    try exact Hwf.
  case_bool_decide; [exact Hwf|]. cbn [world_of fs].
  apply well_formed_insert; try assumption; [discriminate|congruence].
Qed.

Lemma keeps_well_formed_save (img : Image) (fp : string) :
  keeps (fun w => well_formed (fs w)) (save img fp).
Proof.
  intros w Hwf. unfold save. cbv zeta.
  destruct (components fp) as [|c p]; [exact Hwf|]. cbn [node_at].
  destruct (fs w !! (c :: p)) as [[|content]|] eqn:E; [exact Hwf| |];
    destruct (node_at (fs w) (parent (c :: p))) as [[|content']|] eqn:Epar;
    try exact Hwf;
    case_bool_decide; try exact Hwf; cbn [world_of fs];
    apply well_formed_insert; try assumption; (discriminate || congruence).
Qed.

(** X11 (lines 5-25): the script keeps the file system a file system:
    whether it completes or raises, every entry it leaves sits in a
    directory when that was so before the run. *)
Theorem main_keeps_well_formed (w : World) :
  well_formed (fs w) -> well_formed (fs (world_of (main w))).
Proof.
  apply (keeps_main (fun w => well_formed (fs w))).
  - apply keeps_well_formed_mkdir.
  - apply keeps_well_formed_save.
  - intros s w0 H. exact H.
Qed.

End WellFormed.

(** ** The directory step, in every world *)

Section EveryOutcome.

Context {pil : Pillow}.

Lemma only_dirs_added_refl (m : gmap path node) : only_dirs_added m m.
Proof. split; [tauto|]. intros p Hp. left. exact Hp. Qed.

Lemma only_dirs_added_insert (m m' : gmap path node) (q : path) :
  only_dirs_added m m' -> m' !! q = None -> q = dist_dir \/ q = icons_dir ->
  only_dirs_added m (<[q := Dir]> m').
Proof.
  intros [Hkeep Hnew] Hq Hwhich. split.
  - intros p n Hp. destruct (decide (p = q)) as [->|Hne].
    + rewrite (Hkeep q n Hp) in Hq. discriminate Hq.
    + rewrite lookup_insert_ne by congruence. apply Hkeep, Hp.
  - intros p Hp. destruct (decide (p = q)) as [->|Hne].
    + right. rewrite lookup_insert_eq. tauto.
    + rewrite lookup_insert_ne by congruence. apply Hnew, Hp.
Qed.

(** What [makedirs] leaves alone, whether it completes or raises. *)
Lemma makedirs_frame (w : World) :
  console (world_of (makedirs "dist/icons" true w)) = console w /\
  denied (world_of (makedirs "dist/icons" true w)) = denied w /\
  only_dirs_added (fs w) (fs (world_of (makedirs "dist/icons" true w))).
Proof.
  rewrite makedirs_icons_cases.
  pose proof (only_dirs_added_refl (fs w)) as H0.
  assert (Hd : fs w !! dist_dir = None ->
               only_dirs_added (fs w) (<[dist_dir := Dir]> (fs w))).
  { intros E. apply only_dirs_added_insert; [exact H0|exact E|tauto]. }
  assert (Hi : fs w !! icons_dir = None ->
               only_dirs_added (fs w) (<[icons_dir := Dir]> (fs w))).
  { intros E. apply only_dirs_added_insert; [exact H0|exact E|tauto]. }
  assert (Hdi : fs w !! dist_dir = None -> fs w !! icons_dir = None ->
                only_dirs_added (fs w)
                  (<[icons_dir := Dir]> (<[dist_dir := Dir]> (fs w)))).
  { intros E1 E2. apply only_dirs_added_insert; [apply Hd, E1| |tauto].
    rewrite lookup_insert_ne by discriminate. exact E2. }
  destruct (fs w !! dist_dir) as [[|c]|] eqn:Ed;
    destruct (fs w !! icons_dir) as [[|c']|] eqn:Ei;
    cbv zeta; repeat case_bool_decide; cbn [world_of fs denied console];
    auto.
Qed.

(** X12 (line 5): whether it completes or raises, [makedirs] prints
    nothing, keeps every entry that was there as it was, and adds nothing
    but the directories [dist] and [dist/icons]. *)
Theorem makedirs_only_adds_directories (w : World) :
  console (world_of (makedirs "dist/icons" true w)) = console w /\
  denied (world_of (makedirs "dist/icons" true w)) = denied w /\
  only_dirs_added (fs w) (fs (world_of (makedirs "dist/icons" true w))).
Proof. apply makedirs_frame. Qed.

(** X13 (line 5): once [makedirs] has completed, calling it again completes
    at once and changes nothing. *)
Theorem makedirs_idempotent (w w' : World) :
  makedirs "dist/icons" true w = Ok tt w' ->
  makedirs "dist/icons" true w' = Ok tt w'.
Proof.
  intros H. apply makedirs_ok_inv in H. destruct H as (_ & Hi & [n Hd]).
  rewrite makedirs_icons_cases, Hd, Hi. destruct n; reflexivity.
Qed.






(** X17 (line 5): the directory step completes exactly when the two
    directories exist already or can be made. *)
Theorem makedirs_completes_iff (w : World) :
  (exists w', makedirs "dist/icons" true w = Ok tt w') <-> dirs_ready w.
Proof.
  split.
  - intros [w' H]. apply (makedirs_ok_dirs w w' H).
  - intros H. eexists. apply makedirs_ok, H.
Qed.

(** X18 (line 5): when [dist] is a regular file, so that [dist/icons] is
    missing, the directory step raises [NotADirectoryError], the script
    ends with it, and nothing is changed or printed. *)
Theorem makedirs_dist_is_a_file (w : World) (c : list Byte.byte) :
  fs w !! dist_dir = Some (File c) -> fs w !! icons_dir = None ->
  makedirs "dist/icons" true w = Raise NotADirectoryError w /\
  main w = Raise NotADirectoryError w.
Proof.
  intros Hd Hi.
  assert (Hm : makedirs "dist/icons" true w = Raise NotADirectoryError w)
    by (rewrite makedirs_icons_cases, Hd, Hi; reflexivity).
  split; [exact Hm|]. apply main_makedirs_raise, Hm.
Qed.


End EveryOutcome.

(** ** Concrete runs on the reference imaging library *)

Example points_of_16 : points 16 = [ (8, 6); (6, 10); (10, 10) ].
Proof. reflexivity. Qed.

Example points_of_48 : points 48 = [ (24, 16); (16, 32); (32, 32) ].
Proof. reflexivity. Qed.

Example points_of_128 : points 128 = [ (64, 43); (43, 85); (85, 85) ].
Proof. reflexivity. Qed.

Example points_of_5 : points 5 = [ (2, 2); (2, 2); (2, 2) ].
Proof. reflexivity. Qed.

Example file_name_of_16 :
  ("dist/icons/icon" +:+ pretty 16 +:+ ".png")%string = "dist/icons/icon16.png"%string /\
  icon_path 16 = ["dist"; "icons"; "icon16.png"]%string.
Proof. split; reflexivity. Qed.

(** Row 8 of the 16-pixel icon: three white pixels around the centre. *)
Example icon_16_row_8 :
  match @draw_icon reference_pillow 16 with
  | Val img => im_data img !! 8%nat
  | Exc _ => None
  end =
  Some (replicate 7 green ++ replicate 3 white ++ replicate 6 green).
Proof. vm_compute. reflexivity. Qed.

(** From nothing, the script prints its three lines and leaves five
    entries on disk. *)
Example run_in_empty_world :
  match @main reference_pillow empty_world with
  | Ok _ w' => Some (console w', size (dom (fs w')))
  | Raise _ _ => None
  end =
  Some ([ "Created icon16.png"; "Created icon48.png"; "Created icon128.png" ]%string, 5%nat).
Proof. vm_compute. reflexivity. Qed.

(** With [dist/icons/icon48.png] a directory, the script stops at the
    second size. *)
Example run_in_blocked_world :
  match @main reference_pillow blocked_world with
  | Ok _ _ => None
  | Raise e w' => Some (e, console w', is_file (fs w') (icon_path 16),
                        is_file (fs w') (icon_path 128))
  end =
  Some (IsADirectoryError, [ "Created icon16.png" ]%string, true, false).
Proof. vm_compute. reflexivity. Qed.

(** With [dist/icons] a regular file, the script stops at once. *)
Example run_in_collision_world :
  @main reference_pillow collision_world = Raise FileExistsError collision_world.
Proof. vm_compute. reflexivity. Qed.

Lemma C9_vertices_on_canvas_witness :
  0 < 16 /\
  Forall (fun c => 0 <= c <= 16 - 1) (coordinates (points 16)) /\
  forall p, @covers reference_pillow (points 16) p = true ->
    0 <= fst p <= 16 - 1 /\ 0 <= snd p <= 16 - 1.
Proof.
  split; [lia|]. apply (@C9_vertices_on_canvas reference_pillow 16). lia.
Defined.

Lemma C10_small_sizes_degenerate_witness :
  (arrow_size 5 / 2 = 0 /\
   points 5 = [ (5 / 2, 5 / 2); (5 / 2, 5 / 2); (5 / 2, 5 / 2) ] /\
   forall p, @covers reference_pillow (points 5) p = true -> p = (5 / 2, 5 / 2)) /\
  (0 < arrow_size 16 / 2 /\ NoDup (points 16)).
Proof.
  split.
  - apply (@C10_small_sizes_degenerate reference_pillow 5); lia.
  - apply (@C10_small_sizes_degenerate reference_pillow 16); lia.
Defined.

(** The example worlds that are ready for a run. *)
Lemma empty_world_ready : ready empty_world.
Proof.
  split.
  - unfold dirs_ready. cbn. split; apply not_elem_of_empty.
  - intros s _. split; [|apply not_elem_of_empty].
    cbn. rewrite lookup_empty. discriminate.
Qed.

Lemma polluted_world_ready : ready polluted_world.
Proof.
  split.
  - exact I.
  - intros s Hs. split; [|apply not_elem_of_empty].
    apply sizes_cases in Hs. destruct Hs as [-> | [-> | ->]]; paths_differ.
Qed.

Lemma C2_files_and_lines_witness :
  ready empty_world /\
  exists w',
    @main reference_pillow empty_world = Ok tt w' /\
    console w' =
      console empty_world ++
      [ "Created icon16.png"; "Created icon48.png"; "Created icon128.png" ]%string /\
    fs w' !! ["dist"; "icons"; "icon16.png"]%string =
      Some (File (@icon_bytes reference_pillow 16)).
Proof.
  destruct (@C2_files_and_lines reference_pillow empty_world) as [Hiff Hout].
  split; [exact empty_world_ready|].
  destruct (proj2 Hiff empty_world_ready) as [w' H].
  exists w'. split; [exact H|].
  destruct (Hout w' H) as (Hcon & _ & H16 & _). split; assumption.
Defined.

Lemma C3_one_square_file_per_size_witness :
  16 ∈ sizes /\
  fs empty_world !! icon_path 16 = None /\
  exists img w',
    @draw_icon reference_pillow 16 = Val img /\
    width img = 16 /\ height img = 16 /\
    pixel_at img (0, 0) = Some (76, 175, 80) /\
    pixel_at img (16 / 2, 16 / 2) = Some (255, 255, 255) /\
    @main reference_pillow empty_world = Ok tt w' /\
    fs w' !! icon_path 16 = Some (File (reference_encode img)).
Proof.
  split; [exact in_sizes_16|]. split; [reflexivity|].
  destruct (@C3_one_square_file_per_size reference_pillow 16 in_sizes_16)
    as (img & bg & fg & Hd & _ & Hw & Hh & _ & _ & Hbg & Hfg & _ & Hp0 & Hpc &
        _ & _ & _ & Hrun & _).
  destruct (Hrun empty_world empty_world_ready) as (w' & Hmain & Hfile).
  assert (Ebg : bg = (76, 175, 80)) by (vm_compute in Hbg; congruence).
  assert (Efg : fg = (255, 255, 255)) by (vm_compute in Hfg; congruence).
  subst bg fg.
  exists img, w'. repeat split; assumption.
Defined.

Lemma C4_centre_is_white_witness :
  16 ∈ sizes /\
  exists img a b c,
    @draw_icon reference_pillow 16 = Val img /\
    @icon_bytes reference_pillow 16 = reference_encode img /\
    points 16 = [a; b; c] /\
    strictly_inside a b c (16 / 2, 16 / 2) = true /\
    pixel_at img (16 / 2, 16 / 2) = Some white /\
    getrgb "white" = Some (255, 255, 255).
Proof.
  split; [exact in_sizes_16|].
  exact (@C4_centre_is_white reference_pillow 16 in_sizes_16).
Defined.

Lemma C5_corners_are_background_witness :
  128 ∈ sizes /\
  exists img,
    @draw_icon reference_pillow 128 = Val img /\
    @icon_bytes reference_pillow 128 = reference_encode img /\
    getrgb "#4CAF50" = Some (76, 175, 80) /\
    Forall (fun corner =>
              pixel_at img corner = Some (76, 175, 80) /\
              exists a b c, points 128 = [a; b; c] /\ inside_or_on a b c corner = false)
           [ (0, 0); (128 - 1, 0); (0, 128 - 1); (128 - 1, 128 - 1) ].
Proof.
  split; [exact in_sizes_128|].
  exact (@C5_corners_are_background reference_pillow 128 in_sizes_128).
Defined.

(** C6 as stated, with exactly 3 matching files after any run, fails in a
    directory that held [icon32.png] before the run: the run completes and
    leaves 4. *)
Lemma C6_counterexample :
  exists w',
    @main reference_pillow polluted_world = Ok tt w' /\
    size (icon_files (fs w')) = 4%nat /\
    size (icon_files (fs w')) <> 3%nat.
Proof.
  eexists. split; [apply main_ok, polluted_world_ready|].
  cbn [fs]. rewrite icon_files_after_run.
  assert (E : size (icon_files (fs polluted_world) ∪
                    ({[ icon_path 16; icon_path 48; icon_path 128 ]} : gset path)) = 4%nat)
    by (vm_compute; reflexivity).
  rewrite E. split; [reflexivity|discriminate].
Qed.

Lemma empty_world_no_icons :
  icon_files (fs empty_world) ⊆ {[ icon_path 16; icon_path 48; icon_path 128 ]}.
Proof.
  intros p Hp. apply elem_of_icon_files in Hp. destruct Hp as [Hf _].
  discriminate Hf.
Qed.

Lemma C6_rerun_and_listing_witness :
  let w' := mkWorld (@after_run reference_pillow (fs empty_world)) ∅
              ([] ++ map created sizes) in
  @main reference_pillow empty_world = Ok tt w' /\
  (exists w'', @main reference_pillow w' = Ok tt w'' /\ fs w'' = fs w') /\
  size (icon_files (fs w')) = 3%nat.
Proof.
  intros w'.
  pose proof (@main_ok reference_pillow empty_world empty_world_ready) as H.
  pose proof (@C6_rerun_and_listing reference_pillow empty_world w' H)
    as (_ & Hagain & _ & Hsize).
  split; [exact H|]. split; [exact Hagain|].
  exact (Hsize empty_world_no_icons).
Defined.

(** [blocked_world] after the first image has been written. *)
Lemma blocked_world_first_size :
  @for_each Z [16] (@body reference_pillow) blocked_world =
  Ok tt (mkWorld (<[icon_path 16 := File (@icon_bytes reference_pillow 16)]>
                    (fs blocked_world)) ∅ ([] ++ [created 16])).
Proof.
  cbn [for_each]. unfold bind.
  rewrite (@body_ok reference_pillow 16 blocked_world in_sizes_16).
  - reflexivity.
  - reflexivity.
  - paths_differ.
  - apply not_elem_of_empty.
Qed.

Lemma blocked_world_second_size (w1 : World) :
  w1 = mkWorld (<[icon_path 16 := File (@icon_bytes reference_pillow 16)]>
                  (fs blocked_world)) ∅ ([] ++ [created 16]) ->
  @body reference_pillow 48 w1 = Raise IsADirectoryError w1.
Proof.
  intros ->. rewrite (@body_cases reference_pillow 48 _ in_sizes_48).
  cbn [fs]. rewrite lookup_insert_ne by paths_differ. reflexivity.
Qed.

Lemma C7_failure_stops_the_run_witness :
  let w1 := mkWorld (<[icon_path 16 := File (@icon_bytes reference_pillow 16)]>
                       (fs blocked_world)) ∅ ([] ++ [created 16]) in
  makedirs "dist/icons" true blocked_world = Ok tt blocked_world /\
  [16; 48; 128] = [16] ++ 48 :: [128] /\
  @main reference_pillow blocked_world = Raise IsADirectoryError w1 /\
  console w1 = console blocked_world ++ map created [16] /\
  (forall s', s' ∈ [16] ->
     fs w1 !! icon_path s' = Some (File (@icon_bytes reference_pillow s'))) /\
  (forall s', s' ∈ [48; 128] ->
     fs w1 !! icon_path s' = fs blocked_world !! icon_path s').
Proof.
  intros w1.
  assert (Hm : makedirs "dist/icons" true blocked_world = Ok tt blocked_world)
    by (vm_compute; reflexivity).
  assert (Hsplit : [16; 48; 128] = [16] ++ 48 :: [128]) by reflexivity.
  pose proof (@C7_failure_stops_the_run reference_pillow
                blocked_world blocked_world w1 w1 [16] [128] 48 IsADirectoryError
                Hm Hsplit blocked_world_first_size
                (blocked_world_second_size w1 eq_refl))
    as (Hmain & _ & Hcon & Hfiles & Hlater).
  repeat split; assumption.
Defined.

Lemma empty_world_well_formed : well_formed (fs empty_world).
Proof. apply map_Forall_empty. Qed.

Lemma dirs_world_well_formed : well_formed (fs dirs_world).
Proof.
  unfold well_formed, dirs_world. cbn [fs].
  repeat apply map_Forall_insert_2; try apply map_Forall_empty;
    (split; [discriminate|reflexivity]).
Qed.

Lemma collision_world_well_formed : well_formed (fs collision_world).
Proof.
  unfold well_formed, collision_world. cbn [fs].
  repeat apply map_Forall_insert_2; try apply map_Forall_empty;
    (split; [discriminate|reflexivity]).
Qed.

Lemma C8_directory_step_witness :
  (well_formed (fs empty_world) /\
   exists w',
     makedirs "dist/icons" true empty_world = Ok tt w' /\
     fs w' !! dist_dir = Some Dir /\ fs w' !! icons_dir = Some Dir /\
     console w' = console empty_world /\
     forall p, p <> dist_dir -> p <> icons_dir -> fs w' !! p = fs empty_world !! p) /\
  (well_formed (fs dirs_world) /\
   makedirs "dist/icons" true dirs_world = Ok tt dirs_world) /\
  (well_formed (fs collision_world) /\
   makedirs "dist/icons" true collision_world = Raise FileExistsError collision_world /\
   @main reference_pillow collision_world = Raise FileExistsError collision_world).
Proof.
  split; [|split].
  - split; [exact empty_world_well_formed|].
    apply (@C8_directory_step reference_pillow empty_world empty_world_well_formed).
    + reflexivity.
    + intros c H. vm_compute in H. discriminate H.
    + apply not_elem_of_empty.
    + apply not_elem_of_empty.
  - split; [exact dirs_world_well_formed|].
    apply (@C8_directory_step reference_pillow dirs_world dirs_world_well_formed).
    reflexivity.
  - split; [exact collision_world_well_formed|].
    destruct (@C8_directory_step reference_pillow collision_world
                collision_world_well_formed) as (_ & _ & Hfile & _).
    apply (Hfile []). reflexivity.
Defined.

(** ** Concrete runs for the properties beyond the claims *)

Lemma dirs_world_loop_ready :
  ([32; 32; 64] = [] \/ fs dirs_world !! icons_dir = Some Dir) /\
  forall s, s ∈ [32; 32; 64] ->
    0 <= s /\ fs dirs_world !! icon_path s <> Some Dir /\
    (icon_path s ∉ denied dirs_world).
Proof.
  split; [right; reflexivity|]. intros s Hs.
  assert (Hcases : s = 32 \/ s = 64)
    by (rewrite !elem_of_cons, elem_of_nil in Hs; tauto).
  split; [lia|]. split; [|apply not_elem_of_empty].
  destruct Hcases as [-> | ->]; paths_differ.
Qed.

Lemma loop_effect_any_sizes_witness :
  exists w1,
    @for_each Z [32; 32; 64] (@body reference_pillow) dirs_world = Ok tt w1 /\
    console w1 = console dirs_world ++ map created [32; 32; 64] /\
    (forall s, s ∈ [32; 32; 64] ->
       fs w1 !! icon_path s = Some (File (@icon_bytes reference_pillow s))).
Proof.
  destruct (proj2 (@loop_completes reference_pillow [32; 32; 64] dirs_world)
              dirs_world_loop_ready) as [w1 H].
  exists w1. split; [exact H|].
  destruct (@loop_effect_any_sizes reference_pillow _ _ _ H)
    as (_ & _ & Hcon & Hfiles & _).
  split; assumption.
Defined.

Lemma centre_is_white_from_6_witness :
  6 <= 6 /\
  exists img,
    @draw_icon reference_pillow 6 = Val img /\
    pixel_at img (6 / 2, 6 / 2) = Some (255, 255, 255).
Proof.
  split; [lia|]. eexists.
  split; [apply (@draw_icon_val reference_pillow 6); lia|].
  apply (@centre_is_white_from_6 reference_pillow 6 _
           (@draw_icon_val reference_pillow 6 ltac:(lia))). lia.
Defined.

Lemma margin_is_background_witness :
  exists img,
    @draw_icon reference_pillow 16 = Val img /\
    pixel_at img (0, 5) = Some (76, 175, 80).
Proof.
  eexists. split; [apply (@draw_icon_val reference_pillow 16); lia|].
  apply (@margin_is_background reference_pillow 16 0 5 _
           (@draw_icon_val reference_pillow 16 ltac:(lia))); [lia|lia|].
  left. reflexivity.
Defined.

Lemma corners_are_background_from_3_witness :
  3 <= 3 /\
  exists img,
    @draw_icon reference_pillow 3 = Val img /\
    Forall (fun corner => pixel_at img corner = Some (76, 175, 80))
           [ (0, 0); (3 - 1, 0); (0, 3 - 1); (3 - 1, 3 - 1) ].
Proof.
  split; [lia|]. eexists.
  split; [apply (@draw_icon_val reference_pillow 3); lia|].
  apply (@corners_are_background_from_3 reference_pillow 3 _
           (@draw_icon_val reference_pillow 3 ltac:(lia))). lia.
Defined.

Lemma main_keeps_well_formed_witness :
  well_formed (fs dirs_world) /\
  well_formed (fs (world_of (@main reference_pillow dirs_world))).
Proof.
  split; [exact dirs_world_well_formed|].
  apply (@main_keeps_well_formed reference_pillow dirs_world dirs_world_well_formed).
Defined.

Lemma empty_world_makedirs :
  makedirs "dist/icons" true empty_world =
  Ok tt (mkWorld (<[icons_dir := Dir]> (<[dist_dir := Dir]> ∅)) ∅ []).
Proof. vm_compute. reflexivity. Qed.

Lemma makedirs_idempotent_witness :
  makedirs "dist/icons" true empty_world = Ok tt dirs_world /\
  makedirs "dist/icons" true dirs_world = Ok tt dirs_world.
Proof.
  split; [exact empty_world_makedirs|].
  apply (makedirs_idempotent empty_world dirs_world empty_world_makedirs).
Defined.


Lemma makedirs_dist_is_a_file_witness :
  fs dist_file_world !! dist_dir = Some (File []) /\
  fs dist_file_world !! icons_dir = None /\
  makedirs "dist/icons" true dist_file_world =
    Raise NotADirectoryError dist_file_world /\
  @main reference_pillow dist_file_world = Raise NotADirectoryError dist_file_world.
Proof.
  assert (Hd : fs dist_file_world !! dist_dir = Some (File [])) by reflexivity.
  assert (Hi : fs dist_file_world !! icons_dir = None) by reflexivity.
  split; [exact Hd|]. split; [exact Hi|].
  apply (@makedirs_dist_is_a_file reference_pillow dist_file_world [] Hd Hi).
Defined.
